(** * SerWB: the KUS serdes (kusphy.py) and the link core (core.py)

    Both source files are Migen hardware generators: each [__init__]
    elaborates a module, that is, a set of signals, a list of combinational
    statements ([self.comb]), per-domain synchronous statements
    ([self.sync.<domain>]), submodules and vendor primitives ([self.specials]).
    The embedding keeps that shape.  A Python constructor becomes a Rocq
    function returning the elaborated module; the statements are given the
    cycle semantics of FHDL (a combinational target that no statement drives
    in a cycle takes its reset value, a register that no statement drives
    keeps its value, an assignment truncates to the width of its target). *)

From Stdlib Require Import ZArith String List Bool Lia DecimalString.
Import ListNotations.
Open Scope string_scope.
Open Scope Z_scope.
Set Warnings "-register-all".

(* ================================================================== *)
(** ** The FHDL fragment used by the two files *)
(* ================================================================== *)

Module Migen.

(** A valuation of the signals of a design in one cycle. *)
Definition env := string -> Z.

(** [Signal(n)]: a named wire or register of [n] bits, reset value 0. *)
Record Signal := mkSignal { name : string; nbits : Z }.

Definition expr := env -> Z.

(** Keep the low [w] bits: what [.eq] does to a wider value. *)
Definition trunc (w v : Z) : Z := Z.land v (Z.ones w).

(** [s[a:b]], Python slice convention: bits a .. b-1. *)
Definition slice (a b : Z) (v : Z) : Z := trunc (b - a) (Z.shiftr v a).

Definition sig (s : Signal) : expr := fun e => e (name s).
Definition C (n : Z) : expr := fun _ => n.
Definition idx (i : Z) (x : expr) : expr := fun e => slice i (i + 1) (x e).
Definition sl (a b : Z) (x : expr) : expr := fun e => slice a b (x e).

Definition b2z (b : bool) : Z := if b then 1 else 0.

(** [x == y] and [x & y]. *)
Definition eqv (x y : expr) : expr := fun e => b2z (x e =? y e).
Definition band (x y : expr) : expr := fun e => Z.land (x e) (y e).

(** [Cat(s0, s1, ...)]: s0 in the low bits. *)
Fixpoint Cat (l : list Signal) : expr :=
  fun e =>
    match l with
    | [] => 0
    | s :: l' => Z.lor (trunc (nbits s) (e (name s)))
                       (Z.shiftl (Cat l' e) (nbits s))
    end.

Fixpoint total_bits (l : list Signal) : Z :=
  match l with
  | [] => 0
  | s :: l' => nbits s + total_bits l'
  end.

(** Statements: [target.eq(e)] and [If(c, ...).Else(...)]. *)
Inductive stmt :=
| Assign (t : Signal) (e : expr)
| If (c : expr) (t f : list stmt).

Definition upd (t : string) (v : Z) (e : env) : env :=
  fun x => if String.eqb x t then v else e x.

(** One statement, reading the cycle's valuation [r] and writing [acc]. *)
Fixpoint exec (r : env) (s : stmt) (acc : env) : env :=
  match s with
  | Assign t e => upd (name t) (trunc (nbits t) (e r)) acc
  | If c t f =>
      fun x =>
        if c r =? 0 then fold_left (fun a s' => exec r s' a) f acc x
        else fold_left (fun a s' => exec r s' a) t acc x
  end.

Fixpoint targets (s : stmt) : list string :=
  match s with
  | Assign t _ => [name t]
  | If _ t f => flat_map targets t ++ flat_map targets f
  end.

Definition reset_all (ts : list string) (r : env) : env :=
  fun x => if existsb (String.eqb x) ts then 0 else r x.

(** A combinational block: every target starts the cycle at its reset
    value, then the statements run in order (the last assignment wins). *)
Definition run_comb (ss : list stmt) (r : env) : env :=
  fold_left (fun a s => exec r s a) ss (reset_all (flat_map targets ss) r).

(** A synchronous block: the next value of every register, registers
    that are not assigned keep their value. *)
Definition run_sync (ss : list stmt) (r : env) : env :=
  fold_left (fun a s => exec r s a) ss r.

(** *** Stream endpoints (litex.soc.interconnect.stream) *)

Record Endpoint := mkEndpoint
  { owner : string; port : string; description : list (string * Z) }.

Definition ep_name (ep : Endpoint) : string := owner ep ++ "." ++ port ep.

Definition field (ep : Endpoint) (f : string) (w : Z) : Signal :=
  mkSignal (ep_name ep ++ "." ++ f) w.
Definition valid (ep : Endpoint) := field ep "valid" 1.
Definition ready (ep : Endpoint) := field ep "ready" 1.
Definition first (ep : Endpoint) := field ep "first" 1.
Definition last (ep : Endpoint) := field ep "last" 1.

(** [src.connect(snk)]: valid, first, last and the payload go from the
    source to the sink, ready comes back. *)
Definition connect (src snk : Endpoint) : list stmt :=
  [ Assign (valid snk) (sig (valid src));
    Assign (ready src) (sig (ready snk));
    Assign (first snk) (sig (first src));
    Assign (last snk) (sig (last src)) ]
  ++ map (fun fw => Assign (field snk (fst fw) (snd fw))
                           (sig (field src (fst fw) (snd fw))))
         (description src).

(** In valuation [o], computed from [e], the sink carries what the
    source offers and the source sees the sink's ready. *)
Definition wired (e o : env) (src snk : Endpoint) : Prop :=
  o (name (valid snk)) = trunc 1 (e (name (valid src)))
  /\ o (name (ready src)) = trunc 1 (e (name (ready snk)))
  /\ o (name (first snk)) = trunc 1 (e (name (first src)))
  /\ o (name (last snk)) = trunc 1 (e (name (last src)))
  /\ Forall (fun fw => o (name (field snk (fst fw) (snd fw)))
                       = trunc (snd fw)
                               (e (name (field src (fst fw) (snd fw)))))
            (description src).

(** *** Submodules and specials, kept as elaboration data *)

Inductive Submodule :=
| Etherbone (mode : string)
| Depacketizer (clk_freq : Z)
| Packetizer
| AsyncFIFO (layout : list (string * Z)) (depth : Z)
| Scrambler (enable : bool)
| Descrambler (enable : bool)
| Encoder (nwords : Z) (lsb_first : bool)
| Decoder (lsb_first : bool)
| Gearbox (iwidth : Z) (idomain : string) (owidth : Z) (odomain : string)
| BitSlip (dw : Z)
| PulseSynchronizer (idomain odomain : string).

(** A submodule under [ClockDomainsRenamer(cd_remapping)]. *)
Record Placed := mkPlaced
  { inst : string; sub : Submodule; cd_remapping : list (string * string) }.

(** [ClockDomainsRenamer("x")] is short for [{"sys": "x"}]. *)
Definition renamer (cd : string) : list (string * string) := [("sys", cd)].

Inductive arg :=
| ASig (s : Signal)
| AInt (n : Z)
| AStr (s : string)
| AReal (s : string)
| AClock (cd : string)
| AReset (cd : string).

Inductive Special :=
| MultiReg (i o : Signal) (odomain : string)
| Instance (prim : string) (args : list (string * arg)).

Record MigenModule := mkModule
  { submodules : list Placed;
    specials : list Special;
    comb : list stmt;
    sync : list (string * stmt) }.

Definition sync_of (cd : string) (m : MigenModule) : list stmt :=
  map snd (filter (fun p => String.eqb (fst p) cd) (sync m)).

End Migen.
Import Migen.

Arguments trunc : simpl never.
Arguments slice : simpl never.
Arguments b2z : simpl never.

(* ================================================================== *)
(** ** The bit aligner placed by kusphy.py *)
(* ================================================================== *)

Module Genlib.

(** Modelled from the spec: [BitSlip] belongs to the Migen library
    (migen.genlib.misc) and is not among the sources.  The specification
    gives the alignment offset as an "integer in [0, symbol-width)
    representing the bit rotation needed to recover symbol boundaries", and
    the bit aligner as rotating "the sampling window by one bit position"
    until "all positions" are exhausted.  [BitSlip(dw)] has two registers:
    the window of the last two dw-bit groups, and the dw-bit output. *)
Record BitSlipRegs := mkBitSlipRegs { window : Z; shown : Z }.

(** Modelled from the spec: the positions of the window, one rotation for
    each bit of a dw-bit group. *)
Definition rotations (dw : Z) : list Z :=
  map Z.of_nat (seq 0 (Z.to_nat dw)).

(** Modelled from the spec: the rotation a value of the [value] port
    selects, if it selects one. *)
Definition rotation (dw : Z) (value : Z) : option Z :=
  find (Z.eqb value) (rotations dw).

(** Modelled from the spec: one edge.  The newest group enters the window
    above the previous one; the output register loads the dw bits of the
    window that start at the selected rotation, and holds when [value]
    selects none. *)
Definition bitslip_next (dw : Z) (s : BitSlipRegs) (i value : Z)
  : BitSlipRegs :=
  {| window := Z.lor (Z.shiftr (window s) dw) (Z.shiftl (trunc dw i) dw);
     shown := match rotation dw value with
              | Some k => slice k (dw + k) (window s)
              | None => shown s
              end |}.

End Genlib.

(* ================================================================== *)
(** ** core.py: SERWBCore *)
(* ================================================================== *)

Module Core.
Section SERWBCore.

(** [phy.cd]: the name of the line-rate clock domain of the PHY. *)
Variable phy_cd : string.
Variable clk_freq : Z.
Variable mode : string.
(** [with_scrambling=True]: [None] is a call that omits the argument. *)
Variable with_scrambling : option bool.
(** Width of the user record exchanged by Etherbone and the
    (de)packetizer.  The record is declared in packet.py, which is not
    among the sources; it is carried as one payload bundle. *)
Variable user_bits : Z.

Definition with_scrambling_arg : bool :=
  match with_scrambling with Some b => b | None => true end.

Definition phy_description : list (string * Z) := [("data", 32)].
Definition user_description : list (string * Z) := [("payload", user_bits)].

(** Endpoints of the submodules.  The FIFOs carry [("data", 32)]; the
    endpoints connected to a FIFO are given the same description, and the
    scrambler's line side carries the [d] and [k] the core reads. *)
Definition etherbone_sink := mkEndpoint "etherbone" "sink" user_description.
Definition etherbone_source :=
  mkEndpoint "etherbone" "source" user_description.
Definition packetizer_sink := mkEndpoint "packetizer" "sink" user_description.
Definition packetizer_source :=
  mkEndpoint "packetizer" "source" phy_description.
Definition depacketizer_sink :=
  mkEndpoint "depacketizer" "sink" phy_description.
Definition depacketizer_source :=
  mkEndpoint "depacketizer" "source" user_description.
Definition tx_cdc_sink := mkEndpoint "tx_cdc" "sink" phy_description.
Definition tx_cdc_source := mkEndpoint "tx_cdc" "source" phy_description.
Definition rx_cdc_sink := mkEndpoint "rx_cdc" "sink" phy_description.
Definition rx_cdc_source := mkEndpoint "rx_cdc" "source" phy_description.
Definition scrambler_sink := mkEndpoint "scrambler" "sink" phy_description.
Definition scrambler_source :=
  mkEndpoint "scrambler" "source" [("d", 32); ("k", 4)].
Definition descrambler_sink :=
  mkEndpoint "descrambler" "sink" [("d", 32); ("k", 4)].
Definition descrambler_source :=
  mkEndpoint "descrambler" "source" phy_description.

(** Signals of the PHY read or driven by the core. *)
Definition phy_init_ready := mkSignal "phy.init.ready" 1.
Definition phy_serdes_tx_k := mkSignal "phy.serdes.tx_k" 4.
Definition phy_serdes_tx_d := mkSignal "phy.serdes.tx_d" 32.
Definition phy_serdes_rx_k := mkSignal "phy.serdes.rx_k" 4.
Definition phy_serdes_rx_d := mkSignal "phy.serdes.rx_d" 32.

Definition SERWBCore : MigenModule :=
  {| submodules :=
       [ (* etherbone *)
         mkPlaced "etherbone" (Etherbone mode) [];
         (* packetizer / depacketizer *)
         mkPlaced "depacketizer" (Depacketizer clk_freq) [];
         mkPlaced "packetizer" Packetizer [];
         (* clock domain crossing *)
         mkPlaced "tx_cdc" (AsyncFIFO [("data", 32)] 16)
                  [("write", "sys"); ("read", phy_cd)];
         mkPlaced "rx_cdc" (AsyncFIFO [("data", 32)] 16)
                  [("write", phy_cd); ("read", "sys")];
         (* scrambling *)
         mkPlaced "scrambler" (Scrambler with_scrambling_arg)
                  (renamer phy_cd);
         mkPlaced "descrambler" (Descrambler with_scrambling_arg)
                  (renamer phy_cd) ];
     specials := [];
     comb :=
       (* core --> phy *)
       connect packetizer_source tx_cdc_sink
       ++ connect tx_cdc_source scrambler_sink
       ++ [ If (sig phy_init_ready)
              [ If (sig (valid scrambler_source))
                  [ Assign phy_serdes_tx_k (sig (field scrambler_source "k" 4));
                    Assign phy_serdes_tx_d (sig (field scrambler_source "d" 32)) ]
                  [];
                Assign (ready scrambler_source) (C 1) ]
              [] ]
       (* phy --> core *)
       ++ [ Assign (valid descrambler_sink) (sig phy_init_ready);
            Assign (field descrambler_sink "k" 4) (sig phy_serdes_rx_k);
            Assign (field descrambler_sink "d" 32) (sig phy_serdes_rx_d) ]
       ++ connect descrambler_source rx_cdc_sink
       ++ connect rx_cdc_source depacketizer_sink
       (* etherbone <--> core *)
       ++ connect depacketizer_source etherbone_sink
       ++ connect etherbone_source packetizer_sink;
     sync := [] |}.

(** The stream connections made by [SERWBCore], in source order. *)
Definition stream_links : list (Endpoint * Endpoint) :=
  [ (packetizer_source, tx_cdc_sink);
    (tx_cdc_source, scrambler_sink);
    (descrambler_source, rx_cdc_sink);
    (rx_cdc_source, depacketizer_sink);
    (depacketizer_source, etherbone_sink);
    (etherbone_source, packetizer_sink) ].

(** The endpoints the core wires to the serdes by hand. *)
Definition serdes_side : list Endpoint :=
  [ scrambler_source; descrambler_sink ].

(** Every source and every sink the core touches. *)
Definition sources : list Endpoint :=
  map fst stream_links ++ [ scrambler_source ].
Definition sinks : list Endpoint :=
  map snd stream_links ++ [ descrambler_sink ].

Definition rename (m : list (string * string)) (cd : string) : string :=
  match find (fun p => String.eqb (fst p) cd) m with
  | Some p => snd p
  | None => cd
  end.

(** The clock domain a port of a placed submodule lives in: an AsyncFIFO
    has its sink in "write" and its source in "read", every other
    submodule is in "sys"; then the renamer applies. *)
Definition port_domain (p : Placed) (prt : string) : string :=
  match sub p with
  | AsyncFIFO _ _ =>
      rename (cd_remapping p)
             (if String.eqb prt "sink" then "write" else "read")
  | _ => rename (cd_remapping p) "sys"
  end.

Definition domain_of (ep : Endpoint) : option string :=
  match find (fun p => String.eqb (inst p) (owner ep))
             (submodules SERWBCore) with
  | Some p => Some (port_domain p (port ep))
  | None => None
  end.

Definition is_fifo (p : Placed) : bool :=
  match sub p with AsyncFIFO _ _ => true | _ => false end.

Definition enable_of (who : string) : option bool :=
  match find (fun p => String.eqb (inst p) who) (submodules SERWBCore) with
  | Some p => match sub p with
              | Scrambler b => Some b
              | Descrambler b => Some b
              | _ => None
              end
  | None => None
  end.

(** The settled valuation of a cycle. *)
Definition settle (e : env) : env := run_comb (comb SERWBCore) e.

(** A word moves on an endpoint in a cycle when valid and ready are both
    up. *)
Definition moves (ep : Endpoint) (e : env) : bool :=
  negb (e (name (valid ep)) =? 0) && negb (e (name (ready ep)) =? 0).

(** Words handed to the serdes, and words taken from it, over a run. *)
Definition exchanged (e : env) : nat :=
  (if moves scrambler_source (settle e) then 1 else 0)%nat
  + (if moves descrambler_sink (settle e) then 1 else 0)%nat.

Definition exchanged_over (tr : list env) : nat :=
  fold_right (fun e n => (exchanged e + n)%nat) 0%nat tr.

End SERWBCore.

(** A cycle of the training phase: the scrambler offers a word, the
    descrambler would take one, the PHY is not ready. *)
Definition waiting_cycle : env :=
  upd "scrambler.source.valid" 1
    (upd "scrambler.source.d" 0xdeadbeef
       (upd "descrambler.sink.ready" 1 (fun _ => 0))).

End Core.

(* ================================================================== *)
(** ** kusphy.py: KUSSerdes *)
(* ================================================================== *)

Module KUSPhy.

(** [base[i]suffix], the name of an element of a Python list of signals. *)
Definition ix (base : string) (i : nat) (suffix : string) : string :=
  base ++ "[" ++ NilEmpty.string_of_uint (Nat.to_uint i) ++ "]" ++ suffix.

(** Pads of the link. *)
Definition pads_clk_p := mkSignal "pads.clk_p" 1.
Definition pads_clk_n := mkSignal "pads.clk_n" 1.
Definition pads_tx_p := mkSignal "pads.tx_p" 1.
Definition pads_tx_n := mkSignal "pads.tx_n" 1.
Definition pads_rx_p := mkSignal "pads.rx_p" 1.
Definition pads_rx_n := mkSignal "pads.rx_n" 1.

(** Attributes of the serdes. *)
Definition self_refclk := mkSignal "self.refclk" 1.
Definition self_tx_k := mkSignal "self.tx_k" 4.
Definition self_tx_d := mkSignal "self.tx_d" 32.
Definition self_rx_k := mkSignal "self.rx_k" 4.
Definition self_rx_d := mkSignal "self.rx_d" 32.
Definition self_tx_idle := mkSignal "self.tx_idle" 1.
Definition self_tx_comma := mkSignal "self.tx_comma" 1.
Definition self_rx_idle := mkSignal "self.rx_idle" 1.
Definition self_rx_comma := mkSignal "self.rx_comma" 1.
Definition self_rx_bitslip_value := mkSignal "self.rx_bitslip_value" 6.
Definition self_rx_delay_rst := mkSignal "self.rx_delay_rst" 1.
Definition self_rx_delay_inc := mkSignal "self.rx_delay_inc" 1.
Definition self_rx_delay_ce := mkSignal "self.rx_delay_ce" 1.
Definition self_rx_delay_en_vtc := mkSignal "self.rx_delay_en_vtc" 1.

(** Ports of the library submodules: [Encoder(4, True)], four
    [Decoder(True)], the gearboxes, [BitSlip(40)] (whose [value] is
    [Signal(max=40)], six bits) and the pulse synchronizers. *)
Definition encoder_k (i : nat) := mkSignal (ix "self.encoder.k" i "") 1.
Definition encoder_d (i : nat) := mkSignal (ix "self.encoder.d" i "") 8.
Definition encoder_output (i : nat) :=
  mkSignal (ix "self.encoder.output" i "") 10.
Definition decoders_input (i : nat) :=
  mkSignal (ix "self.decoders" i ".input") 10.
Definition decoders_d (i : nat) := mkSignal (ix "self.decoders" i ".d") 8.
Definition decoders_k (i : nat) := mkSignal (ix "self.decoders" i ".k") 1.
Definition tx_clk_gearbox_i := mkSignal "self.tx_clk_gearbox.i" 40.
Definition tx_clk_gearbox_o := mkSignal "self.tx_clk_gearbox.o" 8.
Definition tx_gearbox_i := mkSignal "self.tx_gearbox.i" 40.
Definition tx_gearbox_o := mkSignal "self.tx_gearbox.o" 8.
Definition rx_gearbox_i := mkSignal "self.rx_gearbox.i" 8.
Definition rx_gearbox_o := mkSignal "self.rx_gearbox.o" 40.
Definition rx_bitslip_value_port := mkSignal "self.rx_bitslip.value" 6.
Definition rx_bitslip_i := mkSignal "self.rx_bitslip.i" 40.
Definition rx_bitslip_o := mkSignal "self.rx_bitslip.o" 40.
Definition do_rx_delay_rst_i := mkSignal "self.do_rx_delay_rst.i" 1.
Definition do_rx_delay_rst_o := mkSignal "self.do_rx_delay_rst.o" 1.
Definition do_rx_delay_ce_i := mkSignal "self.do_rx_delay_ce.i" 1.
Definition do_rx_delay_ce_o := mkSignal "self.do_rx_delay_ce.o" 1.

(** control/status cdc: the local signals of [__init__]. *)
Definition tx_idle := mkSignal "tx_idle" 1.
Definition tx_comma := mkSignal "tx_comma" 1.
Definition rx_idle := mkSignal "rx_idle" 1.
Definition rx_comma := mkSignal "rx_comma" 1.
Definition rx_bitslip_value := mkSignal "rx_bitslip_value" 6.
Definition rx_delay_rst := mkSignal "rx_delay_rst" 1.
Definition rx_delay_inc := mkSignal "rx_delay_inc" 1.
Definition rx_delay_en_vtc := mkSignal "rx_delay_en_vtc" 1.
Definition rx_delay_ce := mkSignal "rx_delay_ce" 1.

Definition clk_o := mkSignal "clk_o" 1.
Definition serdes_o := mkSignal "serdes_o" 1.
Definition clk_i := mkSignal "clk_i" 1.
Definition clk_i_bufg := mkSignal "clk_i_bufg" 1.
Definition clk_i_bufr := mkSignal "clk_i_bufr" 1.
Definition serdes_i_nodelay := mkSignal "serdes_i_nodelay" 1.
Definition serdes_i_delayed := mkSignal "serdes_i_delayed" 1.
Definition serdes_q := mkSignal "serdes_q" 8.

Definition use_bufr : bool := true.

(** The linerate/10 clock pattern, 0b1111100000 in each lane. *)
Definition clk_pattern : Z :=
  Z.lor (Z.lor (Z.lor (Z.shiftl 0x3e0 30) (Z.shiftl 0x3e0 20))
               (Z.shiftl 0x3e0 10))
        (Z.shiftl 0x3e0 0).

Definition control_status_cdc : list Special :=
  [ MultiReg self_tx_idle tx_idle "sys0p2x";
    MultiReg self_tx_comma tx_comma "sys0p2x";
    MultiReg rx_idle self_rx_idle "sys";
    MultiReg rx_comma self_rx_comma "sys";
    MultiReg self_rx_bitslip_value rx_bitslip_value "sys0p2x";
    MultiReg self_rx_delay_inc rx_delay_inc "sys";
    MultiReg self_rx_delay_en_vtc rx_delay_en_vtc "sys" ].

Definition oserdese3 (oq d : Signal) : Special :=
  Instance "OSERDESE3"
    [ ("p_DATA_WIDTH", AInt 8); ("p_INIT", AInt 0);
      ("p_IS_CLK_INVERTED", AInt 0); ("p_IS_CLKDIV_INVERTED", AInt 0);
      ("p_IS_RST_INVERTED", AInt 0);
      ("o_OQ", ASig oq);
      ("i_RST", AReset "sys");
      ("i_CLK", AClock "sys4x"); ("i_CLKDIV", AClock "sys");
      ("i_D", ASig d) ].

Definition obufds (i o ob : Signal) : Special :=
  Instance "OBUFDS" [ ("i_I", ASig i); ("o_O", ASig o); ("o_OB", ASig ob) ].

(** tx clock (linerate/10), master only. *)
Definition tx_clock_specials : list Special :=
  [ oserdese3 clk_o tx_clk_gearbox_o; obufds clk_o pads_clk_p pads_clk_n ].

Definition tx_datapath_specials : list Special :=
  [ oserdese3 serdes_o tx_gearbox_o; obufds serdes_o pads_tx_p pads_tx_n ].

(** rx clock, slave only. *)
Definition rx_clock_specials : list Special :=
  [ Instance "IBUFDS"
      [ ("i_I", ASig pads_clk_p); ("i_IB", ASig pads_clk_n);
        ("o_O", ASig clk_i) ] ]
  ++ (if use_bufr
      then [ Instance "BUFR" [ ("i_I", ASig clk_i); ("o_O", ASig clk_i_bufr) ];
             Instance "BUFG"
               [ ("i_I", ASig clk_i_bufr); ("o_O", ASig clk_i_bufg) ] ]
      else [ Instance "BUFG"
               [ ("i_I", ASig clk_i); ("o_O", ASig clk_i_bufg) ] ]).

Definition rx_datapath_specials : list Special :=
  [ Instance "IBUFDS_DIFF_OUT"
      [ ("i_I", ASig pads_rx_p); ("i_IB", ASig pads_rx_n);
        ("o_O", ASig serdes_i_nodelay) ];
    Instance "IDELAYE3"
      [ ("p_CASCADE", AStr "NONE"); ("p_UPDATE_MODE", AStr "ASYNC");
        ("p_REFCLK_FREQUENCY", AReal "200.0");
        ("p_IS_CLK_INVERTED", AInt 0); ("p_IS_RST_INVERTED", AInt 0);
        ("p_DELAY_FORMAT", AStr "COUNT"); ("p_DELAY_SRC", AStr "IDATAIN");
        ("p_DELAY_TYPE", AStr "VARIABLE"); ("p_DELAY_VALUE", AInt 0);
        ("i_CLK", AClock "sys");
        ("i_RST", ASig rx_delay_rst); ("i_LOAD", AInt 0);
        ("i_INC", ASig rx_delay_inc); ("i_EN_VTC", ASig rx_delay_en_vtc);
        ("i_CE", ASig rx_delay_ce);
        ("i_IDATAIN", ASig serdes_i_nodelay);
        ("o_DATAOUT", ASig serdes_i_delayed) ];
    Instance "ISERDESE3"
      [ ("p_IS_CLK_INVERTED", AInt 0); ("p_IS_CLK_B_INVERTED", AInt 1);
        ("p_DATA_WIDTH", AInt 8);
        ("i_D", ASig serdes_i_delayed);
        ("i_RST", AReset "sys");
        ("i_FIFO_RD_CLK", AInt 0); ("i_FIFO_RD_EN", AInt 0);
        ("i_CLK", AClock "sys4x");
        ("i_CLK_B", AClock "sys4x");
        ("i_CLKDIV", AClock "sys");
        ("o_Q", ASig serdes_q) ] ].

(** tx datapath: tx_data -> encoders. *)
Definition tx_datapath_comb : list stmt :=
  [ If (sig tx_comma)
      [ Assign (encoder_k 0) (C 1);
        Assign (encoder_d 0) (C 0xbc) ]
      [ Assign (encoder_k 0) (idx 0 (sig self_tx_k));
        Assign (encoder_k 1) (idx 1 (sig self_tx_k));
        Assign (encoder_k 2) (idx 2 (sig self_tx_k));
        Assign (encoder_k 3) (idx 3 (sig self_tx_k));
        Assign (encoder_d 0) (sl 0 8 (sig self_tx_d));
        Assign (encoder_d 1) (sl 8 16 (sig self_tx_d));
        Assign (encoder_d 2) (sl 16 24 (sig self_tx_d));
        Assign (encoder_d 3) (sl 24 32 (sig self_tx_d)) ] ].

(** encoders -> gearbox, clocked by sys0p2x. *)
Definition tx_datapath_sync : list (string * stmt) :=
  [ ("sys0p2x",
     If (sig tx_idle)
       [ Assign tx_gearbox_i (C 0) ]
       [ Assign tx_gearbox_i (Cat (map encoder_output (seq 0 4))) ]) ].

(** rx datapath: serdes -> gearbox -> bitslip -> decoders -> rx_data. *)
Definition rx_datapath_comb : list stmt :=
  [ Assign rx_gearbox_i (sig serdes_q);
    Assign rx_bitslip_value_port (sig rx_bitslip_value);
    Assign rx_bitslip_i (sig rx_gearbox_o);
    Assign (decoders_input 0) (sl 0 10 (sig rx_bitslip_o));
    Assign (decoders_input 1) (sl 10 20 (sig rx_bitslip_o));
    Assign (decoders_input 2) (sl 20 30 (sig rx_bitslip_o));
    Assign (decoders_input 3) (sl 30 40 (sig rx_bitslip_o));
    Assign self_rx_k (Cat (map decoders_k (seq 0 4)));
    Assign self_rx_d (Cat (map decoders_d (seq 0 4)));
    Assign rx_idle (eqv (sig rx_bitslip_o) (C 0));
    Assign rx_comma
      (band (band (band
         (band (eqv (sig (decoders_d 0)) (C 0xbc))
               (eqv (sig (decoders_k 0)) (C 1)))
         (band (eqv (sig (decoders_d 1)) (C 0x00))
               (eqv (sig (decoders_k 1)) (C 0))))
         (band (eqv (sig (decoders_d 2)) (C 0x00))
               (eqv (sig (decoders_k 2)) (C 0))))
         (band (eqv (sig (decoders_d 3)) (C 0x00))
               (eqv (sig (decoders_k 3)) (C 0)))) ].

Definition is_mode (mode m : string) : bool := String.eqb mode m.

Definition KUSSerdes (mode : string) : MigenModule :=
  {| submodules :=
       [ mkPlaced "encoder" (Encoder 4 true) (renamer "sys0p2x") ]
       ++ map (fun i => mkPlaced (ix "decoders" i "") (Decoder true)
                                 (renamer "sys0p2x")) (seq 0 4)
       ++ [ mkPlaced "do_rx_delay_rst" (PulseSynchronizer "sys" "sys") [];
            mkPlaced "do_rx_delay_ce" (PulseSynchronizer "sys" "sys") [] ]
       ++ (if is_mode mode "master"
           then [ mkPlaced "tx_clk_gearbox" (Gearbox 40 "sys0p2x" 8 "sys") [] ]
           else [])
       ++ [ mkPlaced "tx_gearbox" (Gearbox 40 "sys0p2x" 8 "sys") [];
            mkPlaced "rx_gearbox" (Gearbox 8 "sys" 40 "sys0p2x") [];
            mkPlaced "rx_bitslip" (BitSlip 40) (renamer "sys0p2x") ];
     specials :=
       control_status_cdc
       ++ (if is_mode mode "master" then tx_clock_specials else [])
       ++ tx_datapath_specials
       ++ (if is_mode mode "slave" then rx_clock_specials else [])
       ++ rx_datapath_specials;
     comb :=
       [ Assign rx_delay_rst (sig do_rx_delay_rst_o);
         Assign do_rx_delay_rst_i (sig self_rx_delay_rst) ]
       ++ [ Assign rx_delay_ce (sig do_rx_delay_ce_o);
            Assign do_rx_delay_ce_i (sig self_rx_delay_ce) ]
       ++ (if is_mode mode "master"
           then [ Assign tx_clk_gearbox_i (C clk_pattern) ]
           else [])
       ++ tx_datapath_comb
       ++ (if is_mode mode "slave"
           then [ Assign self_refclk (sig clk_i_bufg) ]
           else [])
       ++ rx_datapath_comb;
     sync := tx_datapath_sync |}.

(** The combinational outputs of a cycle, and the registers after the
    sys0p2x edge that ends it. *)
Definition settle (mode : string) (e : env) : env :=
  run_comb (comb (KUSSerdes mode)) e.
Definition edge (mode : string) (e : env) : env :=
  run_sync (sync_of "sys0p2x" (KUSSerdes mode)) e.

(** An error-free line and codec seen from the receiver: the decoder of
    each lane hands back the (k, d) that was given to the encoder. *)
Definition decoded_from (tx : env) (rx : env) : env :=
  fold_right
    (fun i a => upd (name (decoders_k i)) (tx (name (encoder_k i)))
                  (upd (name (decoders_d i)) (tx (name (encoder_d i))) a))
    rx (seq 0 4).

(** *** One sys0p2x cycle of the datapath

    The encoder, the decoders and the bitslip are library modules
    (litex.soc.cores.code_8b10b, migen.genlib.misc).  Their behaviour is a
    parameter: each is a state machine that reads only its own ports.  The
    bitslip reads both of its ports, [i] and [value], at the edge, and its
    output may come from its registers alone or also follow the two ports
    within the cycle. *)
Record Library := mkLibrary
  { enc_state : Type;
    enc_next : enc_state -> list Z -> list Z -> enc_state;
    enc_output : enc_state -> nat -> Z;
    dec_state : Type;
    dec_reset : dec_state;
    dec_next : dec_state -> Z -> dec_state;
    dec_d : dec_state -> Z;
    dec_k : dec_state -> Z;
    bs_state : Type;
    bs_next : bs_state -> Z -> Z -> bs_state;
    bs_o : bs_state -> Z -> Z -> Z }.

Record State (L : Library) := mkState
  { enc : enc_state L;
    decs : list (dec_state L);
    bs : bs_state L;
    tx_gearbox_i_reg : Z }.
Arguments mkState {L}.
Arguments enc {L}.
Arguments decs {L}.
Arguments bs {L}.
Arguments tx_gearbox_i_reg {L}.

(** What the sys0p2x logic receives in a cycle: the transmit word and
    the controls after their synchronizers, the 40-bit group of the
    receive gearbox, and the buffered clock pad. *)
Record Inputs := mkInputs
  { in_tx_k : Z; in_tx_d : Z; in_tx_comma : Z; in_tx_idle : Z;
    in_rx_bitslip_value : Z; in_rx_group : Z; in_clk_i_bufg : Z }.

Record Outputs := mkOutputs
  { out_line_group : Z; out_rx_k : Z; out_rx_d : Z;
    out_rx_idle : Z; out_rx_comma : Z }.

Section Datapath.
Variable L : Library.
Variable mode : string.

Definition lanes : list nat := seq 0 4.

Definition load (st : State L) (i : Inputs) : env :=
  fold_right
    (fun j a =>
       upd (name (encoder_output j)) (enc_output L (enc st) j)
         (upd (name (decoders_d j))
              (dec_d L (nth j (decs st) (dec_reset L)))
            (upd (name (decoders_k j))
                 (dec_k L (nth j (decs st) (dec_reset L))) a)))
    (upd (name self_tx_k) (in_tx_k i)
       (upd (name self_tx_d) (in_tx_d i)
          (upd (name tx_comma) (in_tx_comma i)
             (upd (name tx_idle) (in_tx_idle i)
                (upd (name rx_bitslip_value) (in_rx_bitslip_value i)
                   (upd (name rx_gearbox_o) (in_rx_group i)
                      (upd (name clk_i_bufg) (in_clk_i_bufg i)
                         (upd (name tx_gearbox_i) (tx_gearbox_i_reg st)
                            (fun _ => 0)))))))))
    lanes.

(** The wires of the cycle: the serdes logic settles, the bitslip
    shows its output for what its two ports carry, the serdes logic
    settles again. *)
Definition wires (st : State L) (i : Inputs) : env :=
  let e1 := settle mode (load st i) in
  let e2 := upd (name rx_bitslip_o)
                (bs_o L (bs st) (e1 (name rx_bitslip_i))
                                (e1 (name rx_bitslip_value_port))) e1 in
  settle mode e2.

Definition observe (w : env) : Outputs :=
  {| out_line_group := w (name tx_gearbox_i);
     out_rx_k := w (name self_rx_k);
     out_rx_d := w (name self_rx_d);
     out_rx_idle := w (name rx_idle);
     out_rx_comma := w (name rx_comma) |}.

Definition next (st : State L) (i : Inputs) : State L :=
  let w := wires st i in
  {| enc := enc_next L (enc st)
              (map (fun j => w (name (encoder_k j))) lanes)
              (map (fun j => w (name (encoder_d j))) lanes);
     decs := map (fun j => dec_next L (nth j (decs st) (dec_reset L))
                                    (w (name (decoders_input j)))) lanes;
     bs := bs_next L (bs st) (w (name rx_bitslip_i))
                             (w (name rx_bitslip_value_port));
     tx_gearbox_i_reg := edge mode w (name tx_gearbox_i) |}.

Fixpoint run (st : State L) (ins : list Inputs) : list Outputs :=
  match ins with
  | [] => []
  | i :: ins' => observe (wires st i) :: run (next st i) ins'
  end.
End Datapath.

(** Two valuations that differ at most on the two signals that only one
    mode has. *)
Definition same_datapath (e e' : env) : Prop :=
  forall x, x <> "self.tx_clk_gearbox.i" -> x <> "self.refclk" -> e x = e' x.

(** The nets of the reference clock: the clk pads and what hangs on
    them. *)
Definition clock_nets : list string :=
  map name [ pads_clk_p; pads_clk_n; clk_o; clk_i; clk_i_bufr; clk_i_bufg;
             tx_clk_gearbox_i; tx_clk_gearbox_o; self_refclk ].

Definition on_clock_net (a : arg) : bool :=
  match a with
  | ASig s => existsb (String.eqb (name s)) clock_nets
  | _ => false
  end.

Definition clock_special (sp : Special) : bool :=
  match sp with
  | MultiReg i o _ => on_clock_net (ASig i) || on_clock_net (ASig o)
  | Instance _ args => existsb (fun p => on_clock_net (snd p)) args
  end.

Definition clock_submodule (p : Placed) : bool :=
  String.eqb (inst p) "tx_clk_gearbox".

(** A small library to run the datapath on: the code group of a lane is
    its k flag above its data byte, and the bitslip is [BitSlip(40)], whose
    output is a register: it loads the selected 40 bits of the 80-bit
    window at the edge, and holds for a value that selects no rotation. *)
Definition toy_library : Library :=
  {| enc_state := list Z;
     enc_next := fun _ k d =>
       map (fun kd => Z.lor (Z.shiftl (fst kd) 8) (snd kd)) (combine k d);
     enc_output := fun s j => nth j s 0;
     dec_state := Z;
     dec_reset := 0;
     dec_next := fun _ code => code;
     dec_d := fun s => Z.land s 0xff;
     dec_k := fun s => Z.land (Z.shiftr s 8) 1;
     bs_state := Genlib.BitSlipRegs;
     bs_next := Genlib.bitslip_next 40;
     bs_o := fun s _ _ => Genlib.shown s |}.

Definition toy_reset : State toy_library :=
  @mkState toy_library [0; 0; 0; 0] [0; 0; 0; 0]
           (Genlib.mkBitSlipRegs 0 0) 0.

(** Three valuations to try the serdes on: a comma request over a pending
    word, a data word with code groups at the encoder outputs, an idle
    request. *)
Definition comma_env : env :=
  upd "tx_comma" 1
    (upd "self.tx_k" 0xf (upd "self.tx_d" 0xdeadbeef (fun _ => 0))).
Definition data_env : env :=
  upd "self.tx_k" 0x1
    (upd "self.tx_d" 0xdeadbeef
       (upd "self.encoder.output[0]" 0x17c
          (upd "self.encoder.output[3]" 0x2aa
             (upd "rx_bitslip_value" 39 (fun _ => 0))))).
Definition idle_env : env :=
  upd "tx_idle" 1 (upd "self.encoder.output[0]" 0x17c (fun _ => 0)).

(** Decoders showing the comma word. *)
Definition comma_word_env : env :=
  upd "self.decoders[0].k" 1 (upd "self.decoders[0].d" 0xbc (fun _ => 0)).

(** Cycles of a short run: training commas, one data word, idle.  [rx] is
    the group the receive gearbox hands over in that cycle. *)
Definition comma_cycle (rx : Z) : Inputs := mkInputs 0xf 0xdeadbeef 1 0 0 rx 0.
Definition data_cycle (k d rx : Z) : Inputs := mkInputs k d 0 0 0 rx 0.
Definition idle_cycle (rx : Z) : Inputs := mkInputs 0 0x12345678 0 1 0 rx 0.

End KUSPhy.

(* ================================================================== *)
(** ** The clock-domain bridge and the whitening stage *)
(* ================================================================== *)

Module Bridge.

(** Modelled from the spec: [stream.AsyncFIFO] belongs to the LiteX
    library and is not among the sources.  Section 5 of the specification
    describes each direction of the bridge as a bounded FIFO queue with
    ready/valid backpressure.  A queue has a depth, a word width and the
    words it holds, oldest first. *)
Record Fifo := mkFifo { depth : nat; width : Z; contents : list Z }.

(** Modelled from the spec: "a producer may enqueue only when the queue is
    not full". *)
Definition sink_ready (q : Fifo) : bool :=
  (length (contents q) <? depth q)%nat.

(** Modelled from the spec: "a consumer dequeues only when data is
    present". *)
Definition source_valid (q : Fifo) : bool :=
  negb (length (contents q) =? 0)%nat.

(** The two clock domains are two independent kinds of edges, in any
    interleaving: a write-domain edge with the producer's valid and data, a
    read-domain edge with the consumer's ready. *)
Inductive edge :=
| WriteEdge (sink_valid : bool) (data : Z)
| ReadEdge (source_ready : bool).

(** What was accepted by the sink and what was handed over by the source
    since reset, oldest first. *)
Record Run := mkRun { fifo : Fifo; accepted : list Z; delivered : list Z }.

(** Modelled from the spec: one edge of either domain.  A word is taken
    when valid meets ready on the write side and leaves when valid meets
    ready on the read side. *)
Definition step (r : Run) (ev : edge) : Run :=
  let q := fifo r in
  match ev with
  | WriteEdge v d =>
      if v && sink_ready q
      then {| fifo := mkFifo (depth q) (width q)
                             (contents q ++ [trunc (width q) d]);
              accepted := accepted r ++ [trunc (width q) d];
              delivered := delivered r |}
      else r
  | ReadEdge rdy =>
      if rdy && source_valid q
      then match contents q with
           | w :: rest =>
               {| fifo := mkFifo (depth q) (width q) rest;
                  accepted := accepted r;
                  delivered := delivered r ++ [w] |}
           | [] => r
           end
      else r
  end.

Definition reset (d : nat) (w : Z) : Run :=
  {| fifo := mkFifo d w []; accepted := []; delivered := [] |}.

Definition run (d : nat) (w : Z) (tr : list edge) : Run :=
  fold_left step tr (reset d w).

(** The queue built for a placed [AsyncFIFO(layout, depth)]. *)
Definition of_placed (p : Placed) : option Run :=
  match sub p with
  | AsyncFIFO layout d =>
      Some (reset (Z.to_nat d) (fold_right (fun f a => snd f + a) 0 layout))
  | _ => None
  end.

(** Nothing is lost, repeated or reordered, and the queue is bounded. *)
Definition inv (r : Run) : Prop :=
  accepted r = (delivered r ++ contents (fifo r))%list
  /\ (length (contents (fifo r)) <= depth (fifo r))%nat.

End Bridge.

Module Whitening.
Section LFSR.

(** The LFSR: its state, how it advances on a line word, and the word it
    contributes. *)
Variable state : Type.
Variable advance : state -> Z -> state.
Variable mask : state -> Z.

(** Modelled from the spec: scrambler.py is not among the sources.
    Section 4.4 of the specification: "the scrambler XORs each outgoing word
    with a value derived from an LFSR advanced every word, and feeds the
    already-scrambled output back into the LFSR". *)
Fixpoint scramble_from (s : state) (ws : list Z) : list Z :=
  match ws with
  | [] => []
  | w :: ws' =>
      let c := Z.lxor w (mask s) in
      c :: scramble_from (advance s c) ws'
  end.

(** Modelled from the spec: "the descrambler can reconstruct the whitening
    sequence purely from the received (scrambled) stream". *)
Fixpoint descramble_from (s : state) (cs : list Z) : list Z :=
  match cs with
  | [] => []
  | c :: cs' => Z.lxor c (mask s) :: descramble_from (advance s c) cs'
  end.

(** Modelled from the spec: "Configurable bypass (identity) mode must be
    supported".  [enable] is the constructor argument of [Scrambler]. *)
Definition scramble (enable : bool) (s : state) (ws : list Z) : list Z :=
  if enable then scramble_from s ws else ws.

(** Modelled from the spec: the bypass of the [Descrambler]. *)
Definition descramble (enable : bool) (s : state) (cs : list Z)
  : list Z :=
  if enable then descramble_from s cs else cs.

End LFSR.
End Whitening.

(* ================================================================== *)
(** ** Drivers, duplex views and the example design's reset sequencer *)
(* ================================================================== *)

Module Netlist.

(** A valuation respects the declared width of a signal. *)
Definition fits (e : env) (s : Signal) : Prop :=
  0 <= e (name s) < 2 ^ nbits s.

Fixpoint distinct (l : list string) : bool :=
  match l with
  | [] => true
  | x :: l' => negb (existsb (String.eqb x) l') && distinct l'
  end.

Fixpoint dedup (l : list string) : list string :=
  match l with
  | [] => []
  | x :: l' => if existsb (String.eqb x) l' then dedup l' else x :: dedup l'
  end.

(** The signals one statement assigns, each once (an [If] that assigns a
    signal in both branches is one driver of it). *)
Definition assigned (s : stmt) : list string := dedup (targets s).

(** The nets a special drives: the output of a [MultiReg], and the nets on
    the [o_...] arguments of an [Instance]. *)
Definition special_outputs (sp : Special) : list string :=
  match sp with
  | MultiReg _ o _ => [name o]
  | Instance _ args =>
      flat_map (fun pa => match snd pa with
                          | ASig s => if String.prefix "o_" (fst pa)
                                      then [name s] else []
                          | _ => []
                          end) args
  end.

(** Every place where an elaborated module drives a signal: its
    combinational statements, its synchronous statements, its specials. *)
Definition drivers (m : MigenModule) : list string :=
  flat_map assigned (comb m)
  ++ flat_map (fun p => assigned (snd p)) (sync m)
  ++ flat_map special_outputs (specials m).

End Netlist.

Module Duplex.

(** The two directions of the serdes cycle, as seen on its inputs, its
    state and its outputs. *)
Definition tx_inputs (i : KUSPhy.Inputs) : Z * Z * Z * Z :=
  (KUSPhy.in_tx_k i, KUSPhy.in_tx_d i, KUSPhy.in_tx_comma i,
   KUSPhy.in_tx_idle i).

Definition rx_inputs (i : KUSPhy.Inputs) : Z * Z :=
  (KUSPhy.in_rx_bitslip_value i, KUSPhy.in_rx_group i).

Definition rx_outputs (o : KUSPhy.Outputs) : Z * Z * Z * Z :=
  (KUSPhy.out_rx_k o, KUSPhy.out_rx_d o, KUSPhy.out_rx_idle o,
   KUSPhy.out_rx_comma o).

Definition same_tx_state {L : KUSPhy.Library} (s s' : KUSPhy.State L) : Prop :=
  KUSPhy.enc s = KUSPhy.enc s'
  /\ KUSPhy.tx_gearbox_i_reg s = KUSPhy.tx_gearbox_i_reg s'.

Definition same_rx_state {L : KUSPhy.Library} (s s' : KUSPhy.State L) : Prop :=
  KUSPhy.decs s = KUSPhy.decs s' /\ KUSPhy.bs s = KUSPhy.bs s'.

(** The signals each direction reads in a cycle, and the signals it
    drives. *)
Definition rx_reads : list string :=
  [ "rx_bitslip_value"; "self.rx_gearbox.o"; "self.rx_bitslip.o" ]
  ++ map (fun j => name (KUSPhy.decoders_d j)) KUSPhy.lanes
  ++ map (fun j => name (KUSPhy.decoders_k j)) KUSPhy.lanes.

Definition rx_drives : list string :=
  [ "rx_comma"; "rx_idle"; "self.rx_k"; "self.rx_d"; "self.rx_bitslip.i";
    "self.rx_bitslip.value" ]
  ++ map (fun j => name (KUSPhy.decoders_input j)) KUSPhy.lanes.

Definition tx_reads : list string :=
  [ "tx_comma"; "tx_idle"; "self.tx_k"; "self.tx_d"; "self.tx_gearbox.i" ]
  ++ map (fun j => name (KUSPhy.encoder_output j)) KUSPhy.lanes.

Definition tx_drives : list string :=
  map (fun j => name (KUSPhy.encoder_k j)) KUSPhy.lanes
  ++ map (fun j => name (KUSPhy.encoder_d j)) KUSPhy.lanes.

Definition agree (names : list string) (e e' : env) : Prop :=
  Forall (fun n => e n = e' n) names.

(** What the encoder inputs are computed from. *)
Definition enc_reads : list string :=
  [ "tx_comma"; "self.tx_k"; "self.tx_d" ].

(** The same cycle with another [tx_idle]. *)
Definition with_tx_idle (idle : Z) (i : KUSPhy.Inputs) : KUSPhy.Inputs :=
  KUSPhy.mkInputs (KUSPhy.in_tx_k i) (KUSPhy.in_tx_d i)
                  (KUSPhy.in_tx_comma i) idle
                  (KUSPhy.in_rx_bitslip_value i) (KUSPhy.in_rx_group i)
                  (KUSPhy.in_clk_i_bufg i).

End Duplex.

(** nexys.py, [_CRG]: the counter that holds the reset of IDELAYCTRL. *)
Module Nexys.

(** [x != y] and [x - y]. *)
Definition nev (x y : expr) : expr := fun e => b2z (negb (x e =? y e)).
Definition sub (x y : expr) : expr := fun e => x e - y e.

(** [reset_counter = Signal(4, reset=15)], [ic_reset = Signal(reset=1)]. *)
Definition reset_counter := mkSignal "reset_counter" 4.
Definition ic_reset := mkSignal "ic_reset" 1.
Definition reset_values : list (Signal * Z) :=
  [ (reset_counter, 15); (ic_reset, 1) ].

Definition crg_sync : list (string * stmt) :=
  [ ("clk200",
     If (nev (sig reset_counter) (C 0))
       [ Assign reset_counter (sub (sig reset_counter) (C 1)) ]
       [ Assign ic_reset (C 0) ]) ].

(** The part of [_CRG] written in FHDL; the MMCM, the clock buffers and
    IDELAYCTRL are vendor primitives around it. *)
Definition CRG : MigenModule :=
  {| submodules := [];
     specials :=
       [ Instance "IDELAYCTRL"
           [ ("i_REFCLK", AClock "clk200"); ("i_RST", ASig ic_reset) ] ];
     comb := [];
     sync := crg_sync |}.

(** Registers at their reset values. *)
Definition at_reset (s : env) : env :=
  fold_right (fun rv a => upd (name (fst rv)) (snd rv) a) s reset_values.

(** One clk200 edge.  [rst] is the reset of the clk200 domain at that edge
    (the output of its AsyncResetSynchronizer): when it is up the registers
    take their reset values, otherwise the synchronous statements run. *)
Definition crg_edge (s : env) (rst : Z) : env :=
  if rst =? 0 then run_sync (sync_of "clk200" CRG) s else at_reset s.

(** The registers after a history of edges, oldest first, from power-up
    (registers at their reset values). *)
Definition crg_run (rsts : list Z) : env :=
  fold_left crg_edge rsts (at_reset (fun _ => 0)).

(** How many edges have passed since the last one with reset up (or since
    power-up). *)
Fixpoint quiet_from (n : nat) (rsts : list Z) : nat :=
  match rsts with
  | [] => n
  | r :: rsts' => quiet_from (if r =? 0 then S n else 0%nat) rsts'
  end.

Definition quiet (rsts : list Z) : nat := quiet_from 0 rsts.

End Nexys.

(* ================================================================== *)
(** ** Evaluation of elaborated blocks *)
(* ================================================================== *)

Ltac comb_eval :=
  cbv [Core.settle Core.SERWBCore Core.exchanged Core.moves wired
       comb run_comb run_sync];
  cbn;
  cbv [sig C upd reset_all eqv band idx sl];
  cbn.


Ltac kus_eval :=
  cbv [KUSPhy.settle KUSPhy.edge KUSPhy.KUSSerdes KUSPhy.decoded_from
       comb sync sync_of run_comb run_sync
       KUSPhy.tx_datapath_comb KUSPhy.rx_datapath_comb
       KUSPhy.tx_datapath_sync];
  cbn;
  cbv [sig C upd reset_all eqv band idx sl];
  cbn.

Lemma trunc_mod (w v : Z) : 0 <= w -> trunc w v = v mod 2 ^ w.
Proof. intros Hw. unfold trunc. now apply Z.land_ones. Qed.

Lemma trunc_range (w v : Z) : 0 <= w -> 0 <= trunc w v < 2 ^ w.
Proof.
  intros Hw. rewrite trunc_mod by assumption.
  apply Z.mod_pos_bound. now apply Z.pow_pos_nonneg.
Qed.

Lemma trunc_small (w v : Z) : 0 <= w -> 0 <= v < 2 ^ w -> trunc w v = v.
Proof. intros Hw Hv. rewrite trunc_mod by assumption. now apply Z.mod_small. Qed.

Lemma trunc_testbit (w v n : Z) :
  0 <= w -> 0 <= n -> Z.testbit (trunc w v) n = Z.testbit v n && (n <? w).
Proof.
  intros Hw Hn. unfold trunc. rewrite Z.land_spec.
  now rewrite Z.testbit_ones_nonneg by assumption.
Qed.

Lemma slice_testbit (a b v n : Z) :
  0 <= a -> a <= b -> 0 <= n ->
  Z.testbit (slice a b v) n = Z.testbit v (n + a) && (n <? b - a).
Proof.
  intros Ha Hb Hn. unfold slice.
  rewrite trunc_testbit by lia. now rewrite Z.shiftr_spec by assumption.
Qed.

Lemma Cat_testbit (s : Signal) (l : list Signal) (e : env) (n : Z) :
  0 <= nbits s -> 0 <= n ->
  Z.testbit (Cat (s :: l) e) n =
  if n <? nbits s then Z.testbit (e (name s)) n
  else Z.testbit (Cat l e) (n - nbits s).
Proof.
  intros Hw Hn. cbn [Cat]. rewrite Z.lor_spec, trunc_testbit by assumption.
  rewrite Z.shiftl_spec by assumption.
  destruct (Z.ltb_spec n (nbits s)).
  - rewrite andb_true_r, (Z.testbit_neg_r _ (n - nbits s)) by lia.
    apply orb_false_r.
  - now rewrite andb_false_r.
Qed.

Lemma slice_Cat_head (s : Signal) (l : list Signal) (e : env) :
  0 <= nbits s ->
  slice 0 (nbits s) (Cat (s :: l) e) = trunc (nbits s) (e (name s)).
Proof.
  intros Hw. apply Z.bits_inj'. intros n Hn.
  rewrite slice_testbit, trunc_testbit, Cat_testbit by lia.
  rewrite Z.add_0_r, Z.sub_0_r.
  destruct (Z.ltb_spec n (nbits s)); [now rewrite andb_true_r|].
  now rewrite !andb_false_r.
Qed.

Lemma slice_Cat_tail (s : Signal) (l : list Signal) (e : env) (a b : Z) :
  0 <= nbits s -> nbits s <= a -> a <= b ->
  slice a b (Cat (s :: l) e) = slice (a - nbits s) (b - nbits s) (Cat l e).
Proof.
  intros Hw Ha Hb. apply Z.bits_inj'. intros n Hn.
  rewrite !slice_testbit, Cat_testbit by lia.
  destruct (Z.ltb_spec (n + a) (nbits s)); [lia|].
  replace (n + a - nbits s) with (n + (a - nbits s)) by lia.
  replace (b - nbits s - (a - nbits s)) with (b - a) by lia.
  reflexivity.
Qed.

Lemma total_bits_nonneg (l : list Signal) :
  Forall (fun s => 0 <= nbits s) l -> 0 <= total_bits l.
Proof. induction 1; cbn [total_bits]; lia. Qed.

Lemma Cat_high_bits (l : list Signal) (e : env) :
  Forall (fun s => 0 <= nbits s) l ->
  forall n, total_bits l <= n -> Z.testbit (Cat l e) n = false.
Proof.
  induction 1 as [|s l Hs Hl IH]; intros n Hn.
  - apply Z.testbit_0_l.
  - pose proof (total_bits_nonneg l Hl) as Ht. cbn [total_bits] in Hn.
    rewrite Cat_testbit by lia.
    destruct (Z.ltb_spec n (nbits s)); [lia|]. apply IH. lia.
Qed.

Lemma Cat_range (l : list Signal) (e : env) :
  Forall (fun s => 0 <= nbits s) l -> 0 <= Cat l e < 2 ^ total_bits l.
Proof.
  intros Hl. pose proof (total_bits_nonneg l Hl) as Ht.
  replace (Cat l e) with (trunc (total_bits l) (Cat l e)).
  { now apply trunc_range. }
  apply Z.bits_inj'. intros n Hn. rewrite trunc_testbit by assumption.
  destruct (Z.ltb_spec n (total_bits l)); [apply andb_true_r|].
  rewrite andb_false_r. symmetry. now apply Cat_high_bits.
Qed.

(* ================================================================== *)
(** ** SERWBCore *)
(* ================================================================== *)

Section CoreFacts.
Variables (phy_cd : string) (clk_freq : Z) (mode : string).
Variables (ws : option bool) (user_bits : Z).

Local Abbreviation settle := (Core.settle phy_cd clk_freq mode ws user_bits).
Local Abbreviation exchanged :=
  (Core.exchanged phy_cd clk_freq mode ws user_bits).
Local Abbreviation exchanged_over :=
  (Core.exchanged_over phy_cd clk_freq mode ws user_bits).

Lemma not_ready_cycle (e : env) :
  e "phy.init.ready" = 0 ->
  settle e "scrambler.source.ready" = 0
  /\ settle e "phy.serdes.tx_k" = 0
  /\ settle e "phy.serdes.tx_d" = 0
  /\ settle e "descrambler.sink.valid" = 0.
Proof.
  intros H. comb_eval. rewrite H. cbn. repeat split; reflexivity.
Qed.

Lemma not_ready_no_exchange (e : env) :
  e "phy.init.ready" = 0 -> exchanged e = 0%nat.
Proof.
  intros H. comb_eval. rewrite H. cbn.
  rewrite andb_false_r. reflexivity.
Qed.

(** Over any stretch of cycles with the PHY not ready, no word is handed
    to the serdes or taken from it. *)
Lemma nothing_exchanged_before_ready (tr : list env) :
  Forall (fun e => e "phy.init.ready" = 0) tr ->
  exchanged_over tr = 0%nat.
Proof.
  induction 1 as [|e tr He Htr IH]; [reflexivity|].
  cbn [Core.exchanged_over fold_right].
  rewrite (not_ready_no_exchange e He). exact IH.
Qed.

End CoreFacts.

(** C1. In every cycle with [phy.init.ready] low, the scrambler's output
    is not consumed ([scrambler.source.ready] is 0), [serdes.tx_k] and
    [serdes.tx_d] stay at their reset value whatever the scrambler offers,
    the descrambler's input is not valid, and no word is exchanged with
    the serdes; over any stretch of such cycles the count of exchanged
    words stays 0. *)
Theorem C1_no_payload_before_ready
  (phy_cd : string) (clk_freq : Z) (mode : string) (ws : option bool)
  (user_bits : Z) (e : env) :
  e "phy.init.ready" = 0 ->
  let settle := Core.settle phy_cd clk_freq mode ws user_bits in
  settle e "scrambler.source.ready" = 0
  /\ (forall valid k d,
        let e' := upd "scrambler.source.valid" valid
                    (upd "scrambler.source.k" k
                       (upd "scrambler.source.d" d e)) in
        settle e' "phy.serdes.tx_k" = 0 /\ settle e' "phy.serdes.tx_d" = 0)
  /\ settle e "descrambler.sink.valid" = 0
  /\ Core.exchanged phy_cd clk_freq mode ws user_bits e = 0%nat
  /\ (forall tr : list env,
        Forall (fun c => c "phy.init.ready" = 0) tr ->
        Core.exchanged_over phy_cd clk_freq mode ws user_bits tr = 0%nat).
Proof.
  intros H settle. subst settle.
  destruct (not_ready_cycle phy_cd clk_freq mode ws user_bits e H)
    as (Hr & _ & _ & Hv).
  split; [exact Hr|]. split; [|split; [exact Hv|split]].
  - intros valid k d e'.
    assert (He' : e' "phy.init.ready" = 0) by exact H.
    destruct (not_ready_cycle phy_cd clk_freq mode ws user_bits e' He')
      as (_ & Hk & Hd & _).
    split; assumption.
  - now apply not_ready_no_exchange.
  - apply nothing_exchanged_before_ready.
Qed.

Lemma C1_no_payload_before_ready_witness :
  Core.waiting_cycle "phy.init.ready" = 0
  /\ Core.settle "sys0p2x" 125000000 "master" None 64 Core.waiting_cycle
       "scrambler.source.ready" = 0.
Proof.
  split; [reflexivity|].
  apply (C1_no_payload_before_ready "sys0p2x" 125000000 "master" None 64
           Core.waiting_cycle).
  reflexivity.
Defined.

(** What [SERWBCore] wires, and where. *)
Lemma core_settled
  (phy_cd : string) (clk_freq : Z) (mode : string) (ws : option bool)
  (user_bits : Z) (e : env) :
  let o := Core.settle phy_cd clk_freq mode ws user_bits e in
  let dom := Core.domain_of phy_cd clk_freq mode ws user_bits in
  let up (x : string) := negb (e x =? 0) in
  (* transmit *)
  wired e o (Core.etherbone_source user_bits) (Core.packetizer_sink user_bits)
  /\ wired e o Core.packetizer_source Core.tx_cdc_sink
  /\ wired e o Core.tx_cdc_source Core.scrambler_sink
  /\ o "phy.serdes.tx_k"
     = (if up "phy.init.ready" && up "scrambler.source.valid"
        then trunc 4 (e "scrambler.source.k") else 0)
  /\ o "phy.serdes.tx_d"
     = (if up "phy.init.ready" && up "scrambler.source.valid"
        then trunc 32 (e "scrambler.source.d") else 0)
  /\ o "scrambler.source.ready" = (if up "phy.init.ready" then 1 else 0)
  (* receive *)
  /\ o "descrambler.sink.valid" = trunc 1 (e "phy.init.ready")
  /\ o "descrambler.sink.k" = trunc 4 (e "phy.serdes.rx_k")
  /\ o "descrambler.sink.d" = trunc 32 (e "phy.serdes.rx_d")
  /\ wired e o Core.descrambler_source Core.rx_cdc_sink
  /\ wired e o Core.rx_cdc_source Core.depacketizer_sink
  /\ wired e o (Core.depacketizer_source user_bits)
               (Core.etherbone_sink user_bits)
  (* the (de)scrambler sits on the line-rate side of the FIFOs *)
  /\ dom Core.packetizer_source = Some "sys"
  /\ dom Core.tx_cdc_sink = Some "sys"
  /\ dom Core.tx_cdc_source = Some phy_cd
  /\ dom Core.scrambler_sink = Some phy_cd
  /\ dom Core.scrambler_source = Some phy_cd
  /\ dom Core.descrambler_sink = Some phy_cd
  /\ dom Core.descrambler_source = Some phy_cd
  /\ dom Core.rx_cdc_sink = Some phy_cd
  /\ dom Core.rx_cdc_source = Some "sys"
  /\ dom Core.depacketizer_sink = Some "sys".
Proof.
  intros o dom up. subst o dom up.
  cbv [wired Core.domain_of].
  repeat match goal with |- _ /\ _ => split end;
    comb_eval;
    repeat match goal with |- Forall _ _ => constructor end;
    cbn;
    repeat match goal with
           | |- context [e ?x =? 0] => destruct (e x =? 0)
           end;
    try reflexivity.
  all: cbv [Core.rename]; cbn; try reflexivity.
Qed.

(** C2.  Transmit: Etherbone feeds the Packetizer, the Packetizer the tx
    FIFO, the FIFO the Scrambler, and the Scrambler (once the PHY is ready
    and it has a word) the serdes.  Receive: the serdes feeds the
    Descrambler, the Descrambler the rx FIFO, the FIFO the Depacketizer, the
    Depacketizer Etherbone.  The Scrambler and the Descrambler are clocked
    by [phy.cd], on the line-rate side of both FIFOs. *)
Theorem C2_stage_order
  (phy_cd : string) (clk_freq : Z) (mode : string) (ws : option bool)
  (user_bits : Z) (e : env) :
  let o := Core.settle phy_cd clk_freq mode ws user_bits e in
  let dom := Core.domain_of phy_cd clk_freq mode ws user_bits in
  let up (x : string) := negb (e x =? 0) in
  (* transmit *)
  wired e o (Core.etherbone_source user_bits) (Core.packetizer_sink user_bits)
  /\ wired e o Core.packetizer_source Core.tx_cdc_sink
  /\ wired e o Core.tx_cdc_source Core.scrambler_sink
  /\ o "phy.serdes.tx_k"
     = (if up "phy.init.ready" && up "scrambler.source.valid"
        then trunc 4 (e "scrambler.source.k") else 0)
  /\ o "phy.serdes.tx_d"
     = (if up "phy.init.ready" && up "scrambler.source.valid"
        then trunc 32 (e "scrambler.source.d") else 0)
  /\ o "scrambler.source.ready" = (if up "phy.init.ready" then 1 else 0)
  (* receive *)
  /\ o "descrambler.sink.valid" = trunc 1 (e "phy.init.ready")
  /\ o "descrambler.sink.k" = trunc 4 (e "phy.serdes.rx_k")
  /\ o "descrambler.sink.d" = trunc 32 (e "phy.serdes.rx_d")
  /\ wired e o Core.descrambler_source Core.rx_cdc_sink
  /\ wired e o Core.rx_cdc_source Core.depacketizer_sink
  /\ wired e o (Core.depacketizer_source user_bits)
               (Core.etherbone_sink user_bits)
  (* the (de)scrambler sits on the line-rate side of the FIFOs *)
  /\ dom Core.packetizer_source = Some "sys"
  /\ dom Core.tx_cdc_sink = Some "sys"
  /\ dom Core.tx_cdc_source = Some phy_cd
  /\ dom Core.scrambler_sink = Some phy_cd
  /\ dom Core.scrambler_source = Some phy_cd
  /\ dom Core.descrambler_sink = Some phy_cd
  /\ dom Core.descrambler_source = Some phy_cd
  /\ dom Core.rx_cdc_sink = Some phy_cd
  /\ dom Core.rx_cdc_source = Some "sys"
  /\ dom Core.depacketizer_sink = Some "sys".
Proof. exact (core_settled phy_cd clk_freq mode ws user_bits e). Qed.

Ltac kus_cases mode :=
  cbv [KUSPhy.settle KUSPhy.edge KUSPhy.KUSSerdes comb sync sync_of];
  destruct (KUSPhy.is_mode mode "master");
  destruct (KUSPhy.is_mode mode "slave");
  kus_eval.

Lemma land_b2z (a b : bool) : Z.land (b2z a) (b2z b) = b2z (a && b).
Proof. destruct a, b; reflexivity. Qed.

Lemma trunc_b2z (b : bool) : trunc 1 (b2z b) = b2z b.
Proof. destruct b; reflexivity. Qed.

Lemma b2z_1 (b : bool) : b2z b = 1 <-> b = true.
Proof. destruct b; cbv; split; congruence. Qed.

Lemma control_status_cdc_placed (mode : string) (sp : Special) :
  In sp KUSPhy.control_status_cdc -> In sp (specials (KUSPhy.KUSSerdes mode)).
Proof.
  intros H. cbv [KUSPhy.KUSSerdes specials]. apply in_or_app. now left.
Qed.

Ltac by_name x :=
  repeat match goal with
         | |- context [String.eqb x ?s] =>
             destruct (String.eqb x s) eqn:?; [reflexivity|]
         end.

(** The serdes statements read no signal they drive: settling a settled
    valuation changes nothing. *)
Lemma settle_stable (mode : string) (e : env) (x : string) :
  KUSPhy.settle mode (KUSPhy.settle mode e) x = KUSPhy.settle mode e x.
Proof.
  kus_cases mode; destruct (e "tx_comma" =? 0) eqn:E; cbn; rewrite ?E; cbn;
    by_name x; reflexivity.
Qed.

(** A short run on the toy library: the comma group 0x1bc leaves two cycles
    after [tx_comma] rises; a comma group on the receive side goes through
    the window and the output register of the bitslip and the decoders, and
    is recognised four cycles after it arrived; the data word leaves as
    four lanes; [tx_idle] zeroes the line group; an all-zero receive group
    raises [rx_idle]. *)
Example toy_run :
  KUSPhy.run KUSPhy.toy_library "slave" KUSPhy.toy_reset
    [ KUSPhy.comma_cycle 0; KUSPhy.comma_cycle 0; KUSPhy.comma_cycle 0x1bc;
      KUSPhy.comma_cycle 0x1bc; KUSPhy.data_cycle 0 0xdeadbeef 0x1bc;
      KUSPhy.data_cycle 1 0x1c 0x1bc; KUSPhy.idle_cycle 0x1bc;
      KUSPhy.idle_cycle 0; KUSPhy.idle_cycle 0; KUSPhy.idle_cycle 0;
      KUSPhy.idle_cycle 0; KUSPhy.idle_cycle 0 ]
  = [ KUSPhy.mkOutputs 0 0 0 1 0;
      KUSPhy.mkOutputs 0 0 0 1 0;
      KUSPhy.mkOutputs 0x1bc 0 0 1 0;
      KUSPhy.mkOutputs 0x1bc 0 0 1 0;
      KUSPhy.mkOutputs 0x1bc 0 0 1 0;
      KUSPhy.mkOutputs 0x1bc 0 0 0 0;
      KUSPhy.mkOutputs 0x378ad2f8ef 1 0xbc 0 1;
      KUSPhy.mkOutputs 0 1 0xbc 0 1;
      KUSPhy.mkOutputs 0 1 0xbc 0 1;
      KUSPhy.mkOutputs 0 1 0xbc 0 1;
      KUSPhy.mkOutputs 0 1 0xbc 1 1;
      KUSPhy.mkOutputs 0 0 0 1 0 ].
Proof. vm_compute. reflexivity. Qed.

(** The bitslip output is a register: under a value that selects no
    rotation (63) it keeps what it showed, here through two cycles in which
    the window has already emptied. *)
Example toy_bitslip_holds :
  map KUSPhy.out_rx_idle
    (KUSPhy.run KUSPhy.toy_library "slave" KUSPhy.toy_reset
       [ KUSPhy.mkInputs 0 0 0 0 63 0x1bc 0; KUSPhy.mkInputs 0 0 0 0 0 0x1bc 0;
         KUSPhy.mkInputs 0 0 0 0 0 0 0; KUSPhy.mkInputs 0 0 0 0 0 0 0;
         KUSPhy.mkInputs 0 0 0 0 63 0 0; KUSPhy.mkInputs 0 0 0 0 63 0 0;
         KUSPhy.mkInputs 0 0 0 0 0 0 0; KUSPhy.mkInputs 0 0 0 0 0 0 0 ])
  = [1; 1; 1; 0; 0; 0; 0; 1].
Proof. vm_compute. reflexivity. Qed.

Lemma rx_comma_settled (mode : string) (e : env) :
  KUSPhy.settle mode e "rx_comma" =
  b2z ((e "self.decoders[0].d" =? 0xbc) && (e "self.decoders[0].k" =? 1)
       && ((e "self.decoders[1].d" =? 0) && (e "self.decoders[1].k" =? 0))
       && ((e "self.decoders[2].d" =? 0) && (e "self.decoders[2].k" =? 0))
       && ((e "self.decoders[3].d" =? 0) && (e "self.decoders[3].k" =? 0))).
Proof.
  kus_cases mode; rewrite !land_b2z, trunc_b2z; reflexivity.
Qed.

(** C3.  [rx_comma] is 1 in a cycle exactly when decoder 0 shows the
    control symbol 0xBC and decoders 1, 2 and 3 show the data symbol 0x00;
    it is 0 or 1; a word whose lane 0 is 0xBC as data (k = 0) leaves it at 0.
    The status bit of the serdes is this signal behind its two-register
    synchronizer into sys. *)
Theorem C3_rx_comma_detects_K28_5
  (mode : string) (e : env) :
  let o := KUSPhy.settle mode e in
  (o "rx_comma" = 1 <->
     (e "self.decoders[0].k" = 1 /\ e "self.decoders[0].d" = 0xbc)
     /\ (e "self.decoders[1].k" = 0 /\ e "self.decoders[1].d" = 0x00)
     /\ (e "self.decoders[2].k" = 0 /\ e "self.decoders[2].d" = 0x00)
     /\ (e "self.decoders[3].k" = 0 /\ e "self.decoders[3].d" = 0x00))
  /\ (o "rx_comma" = 0 \/ o "rx_comma" = 1)
  /\ (forall lane1 lane2 lane3,
        let payload :=
          upd "self.decoders[0].k" 0
            (upd "self.decoders[0].d" 0xbc
               (upd "self.decoders[1].d" lane1
                  (upd "self.decoders[2].d" lane2
                     (upd "self.decoders[3].d" lane3 e)))) in
        KUSPhy.settle mode payload "rx_comma" = 0)
  /\ In (MultiReg KUSPhy.rx_comma KUSPhy.self_rx_comma "sys")
        (specials (KUSPhy.KUSSerdes mode)).
Proof.
  intros o. subst o. split; [|split; [|split]].
  - rewrite rx_comma_settled, b2z_1, !andb_true_iff, !Z.eqb_eq. tauto.
  - rewrite rx_comma_settled. destruct (_ && _); auto.
  - intros lane1 lane2 lane3 payload. rewrite rx_comma_settled.
    subst payload. cbv [upd]. cbn. reflexivity.
  - apply control_status_cdc_placed. cbn. auto 8.
Qed.

Lemma trunc_idem (w v : Z) : trunc w (trunc w v) = trunc w v.
Proof. unfold trunc. now rewrite <- Z.land_assoc, Z.land_diag. Qed.

Lemma trunc_slice (a b v : Z) : trunc (b - a) (slice a b v) = slice a b v.
Proof. unfold slice. apply trunc_idem. Qed.

(** What the transmit mux puts on the encoder inputs. *)
Lemma encoder_inputs_settled (mode : string) (e : env) :
  let o := KUSPhy.settle mode e in
  let comma := negb (e "tx_comma" =? 0) in
  o "self.encoder.k[0]" = (if comma then 1 else slice 0 1 (e "self.tx_k"))
  /\ o "self.encoder.k[1]" = (if comma then 0 else slice 1 2 (e "self.tx_k"))
  /\ o "self.encoder.k[2]" = (if comma then 0 else slice 2 3 (e "self.tx_k"))
  /\ o "self.encoder.k[3]" = (if comma then 0 else slice 3 4 (e "self.tx_k"))
  /\ o "self.encoder.d[0]" = (if comma then 0xbc else slice 0 8 (e "self.tx_d"))
  /\ o "self.encoder.d[1]" = (if comma then 0 else slice 8 16 (e "self.tx_d"))
  /\ o "self.encoder.d[2]" = (if comma then 0 else slice 16 24 (e "self.tx_d"))
  /\ o "self.encoder.d[3]" = (if comma then 0 else slice 24 32 (e "self.tx_d")).
Proof.
  intros o comma. subst o comma.
  kus_cases mode; destruct (e "tx_comma" =? 0); cbn;
    repeat split; try reflexivity;
    try (apply (trunc_slice 0 1)); try (apply (trunc_slice 1 2));
    try (apply (trunc_slice 2 3)); try (apply (trunc_slice 3 4));
    try (apply (trunc_slice 0 8)); try (apply (trunc_slice 8 16));
    try (apply (trunc_slice 16 24)); try (apply (trunc_slice 24 32)).
Qed.

(** C4.  With [tx_comma] up the encoder is given the control symbol 0xBC
    on lane 0 and the data symbol 0x00 on lanes 1 to 3, whatever [tx_k] and
    [tx_d] hold, and a receiver whose decoders hand back what the encoder
    was given raises [rx_comma]; with [tx_comma] down lane i of the encoder
    is given bit i of [tx_k] and byte i of [tx_d]. *)
Theorem C4_comma_round_trip (mode : string) (e : env) :
  let o := KUSPhy.settle mode e in
  (e "tx_comma" <> 0 ->
     (o "self.encoder.k[0]" = 1 /\ o "self.encoder.d[0]" = 0xbc)
     /\ (o "self.encoder.k[1]" = 0 /\ o "self.encoder.d[1]" = 0x00)
     /\ (o "self.encoder.k[2]" = 0 /\ o "self.encoder.d[2]" = 0x00)
     /\ (o "self.encoder.k[3]" = 0 /\ o "self.encoder.d[3]" = 0x00)
     /\ forall (peer_mode : string) (rx : env),
          KUSPhy.settle peer_mode (KUSPhy.decoded_from o rx) "rx_comma" = 1)
  /\ (e "tx_comma" = 0 ->
        (o "self.encoder.k[0]" = slice 0 1 (e "self.tx_k")
         /\ o "self.encoder.d[0]" = slice 0 8 (e "self.tx_d"))
        /\ (o "self.encoder.k[1]" = slice 1 2 (e "self.tx_k")
            /\ o "self.encoder.d[1]" = slice 8 16 (e "self.tx_d"))
        /\ (o "self.encoder.k[2]" = slice 2 3 (e "self.tx_k")
            /\ o "self.encoder.d[2]" = slice 16 24 (e "self.tx_d"))
        /\ (o "self.encoder.k[3]" = slice 3 4 (e "self.tx_k")
            /\ o "self.encoder.d[3]" = slice 24 32 (e "self.tx_d"))).
Proof.
  intros o.
  destruct (encoder_inputs_settled mode e)
    as (K0 & K1 & K2 & K3 & D0 & D1 & D2 & D3).
  fold o in K0, K1, K2, K3, D0, D1, D2, D3. clearbody o.
  split; intros H.
  - apply Z.eqb_neq in H.
    rewrite H in K0, K1, K2, K3, D0, D1, D2, D3.
    cbn [negb] in K0, K1, K2, K3, D0, D1, D2, D3.
    do 4 (split; [split; assumption|]).
    intros peer_mode rx. rewrite rx_comma_settled.
    cbv [KUSPhy.decoded_from upd]. cbn.
    rewrite K0, K1, K2, K3, D0, D1, D2, D3. reflexivity.
  - apply Z.eqb_eq in H.
    rewrite H in K0, K1, K2, K3, D0, D1, D2, D3.
    cbn [negb] in K0, K1, K2, K3, D0, D1, D2, D3.
    repeat split; assumption.
Qed.

Lemma C4_comma_round_trip_witness :
  KUSPhy.comma_env "tx_comma" <> 0
  /\ KUSPhy.settle "slave"
       (KUSPhy.decoded_from (KUSPhy.settle "master" KUSPhy.comma_env)
                            KUSPhy.idle_env) "rx_comma" = 1.
Proof.
  split; [discriminate|].
  apply (proj1 (C4_comma_round_trip "master" KUSPhy.comma_env)).
  discriminate.
Defined.

(** Lane [i] of a concatenation of four signals of [w] bits each. *)
Lemma Cat_lane (mk : nat -> Signal) (w : Z) (e : env) (i : nat) :
  0 <= w -> (forall j, nbits (mk j) = w) -> (i < 4)%nat ->
  slice (w * Z.of_nat i) (w * Z.of_nat i + w) (Cat (map mk (seq 0 4)) e)
  = trunc w (e (name (mk i))).
Proof.
  intros Hw Hmk Hi. cbn [map seq].
  assert (H : forall s l a, nbits s = w -> w <= a ->
            slice a (a + w) (Cat (s :: l) e)
            = slice (a - w) (a - w + w) (Cat l e)).
  { intros s l a Hs Ha. rewrite slice_Cat_tail by lia. rewrite Hs.
    f_equal. lia. }
  assert (H0 : forall s l, nbits s = w ->
            slice 0 (0 + w) (Cat (s :: l) e) = trunc w (e (name s))).
  { intros s l Hs. rewrite <- Hs at 1 2. apply slice_Cat_head. lia. }
  destruct i as [|[|[|[|i]]]]; [| | | |lia]; cbn [Z.of_nat Pos.of_succ_nat Pos.succ].
  - rewrite Z.mul_0_r. apply H0, Hmk.
  - rewrite H by (try apply Hmk; lia).
    replace (w * 1 - w) with 0 by lia. apply H0, Hmk.
  - rewrite H by (try apply Hmk; lia).
    rewrite H by (try apply Hmk; lia).
    replace (w * 2 - w - w) with 0 by lia. apply H0, Hmk.
  - rewrite H by (try apply Hmk; lia).
    rewrite H by (try apply Hmk; lia).
    rewrite H by (try apply Hmk; lia).
    replace (w * 3 - w - w - w) with 0 by lia. apply H0, Hmk.
Qed.

Lemma Cat_lanes_range (mk : nat -> Signal) (w : Z) (e : env) :
  0 <= w -> (forall j, nbits (mk j) = w) ->
  0 <= Cat (map mk (seq 0 4)) e < 2 ^ (4 * w).
Proof.
  intros Hw Hmk.
  replace (4 * w) with (total_bits (map mk (seq 0 4))).
  - apply Cat_range. cbn [map seq]. repeat constructor; rewrite Hmk; exact Hw.
  - cbn [map seq total_bits]. rewrite !Hmk. lia.
Qed.

Lemma tx_group_settled (mode : string) (e : env) :
  KUSPhy.edge mode e "self.tx_gearbox.i" =
  if e "tx_idle" =? 0
  then Cat (map KUSPhy.encoder_output (seq 0 4)) e
  else 0.
Proof.
  pose proof (Cat_lanes_range KUSPhy.encoder_output 10 e) as R.
  cbv [KUSPhy.edge KUSPhy.KUSSerdes sync sync_of KUSPhy.tx_datapath_sync
       run_sync].
  cbn. cbv [sig C upd]. cbn.
  destruct (e "tx_idle" =? 0); [|reflexivity].
  apply trunc_small; [lia|]. apply R; [lia|reflexivity].
Qed.

Lemma rx_word_settled (mode : string) (e : env) :
  KUSPhy.settle mode e "self.rx_k" = Cat (map KUSPhy.decoders_k (seq 0 4)) e
  /\ KUSPhy.settle mode e "self.rx_d"
     = Cat (map KUSPhy.decoders_d (seq 0 4)) e.
Proof.
  pose proof (Cat_lanes_range KUSPhy.decoders_k 1 e) as Rk.
  pose proof (Cat_lanes_range KUSPhy.decoders_d 8 e) as Rd.
  kus_cases mode; (split; apply trunc_small;
    [lia|apply Rk; [lia|reflexivity]|lia|apply Rd; [lia|reflexivity]]).
Qed.

Lemma decoder_inputs_settled (mode : string) (e : env) (i : nat) :
  (i < 4)%nat ->
  KUSPhy.settle mode e (name (KUSPhy.decoders_input i))
  = slice (10 * Z.of_nat i) (10 * Z.of_nat i + 10) (e "self.rx_bitslip.o").
Proof.
  intros Hi.
  destruct i as [|[|[|[|i]]]]; [| | | |lia];
    kus_cases mode;
    match goal with
    | |- trunc _ (slice ?a ?b ?v) = _ => apply (trunc_slice a b v)
    end.
Qed.

(** C6.  Transmit: byte i of [tx_d] and bit i of [tx_k] go to lane i of
    the four-word encoder, and the four 10-bit code groups, lane 0 lowest,
    are the 40-bit group loaded into the gearbox register.  Receive: bits
    10i .. 10i+9 of the group after bitslip go to decoder i, and the
    decoders' [d] and [k] outputs, decoder 0 lowest, are [rx_d] (32 bits)
    and [rx_k] (4 bits).  There is one [Encoder(4, True)] and four
    [Decoder(True)]. *)
Theorem C6_four_lanes (mode : string) (e : env) :
  let o := KUSPhy.settle mode e in
  let group := KUSPhy.edge mode e "self.tx_gearbox.i" in
  let lane (w : Z) (i : nat) := slice (w * Z.of_nat i) (w * Z.of_nat i + w) in
  (* transmit: byte i and flag i of the word go to lane i of the encoder *)
  (forall i, (i < 4)%nat -> e "tx_comma" = 0 ->
     o (name (KUSPhy.encoder_d i)) = lane 8 i (e "self.tx_d")
     /\ o (name (KUSPhy.encoder_k i)) = lane 1 i (e "self.tx_k"))
  (* and the four 10-bit code groups make one 40-bit line group *)
  /\ (forall i, (i < 4)%nat -> e "tx_idle" = 0 ->
        lane 10 i group = trunc 10 (e (name (KUSPhy.encoder_output i))))
  /\ 0 <= group < 2 ^ 40
  (* receive: lane i of the group after bitslip goes to decoder i *)
  /\ (forall i, (i < 4)%nat ->
        o (name (KUSPhy.decoders_input i)) = lane 10 i (e "self.rx_bitslip.o"))
  (* and the decoders' outputs are concatenated into rx_d and rx_k *)
  /\ (forall i, (i < 4)%nat ->
        lane 8 i (o "self.rx_d") = trunc 8 (e (name (KUSPhy.decoders_d i)))
        /\ lane 1 i (o "self.rx_k") = trunc 1 (e (name (KUSPhy.decoders_k i))))
  /\ 0 <= o "self.rx_d" < 2 ^ 32
  /\ 0 <= o "self.rx_k" < 2 ^ 4
  (* one four-word encoder, four decoders *)
  /\ map sub (filter (fun p => match sub p with
                               | Encoder _ _ | Decoder _ => true
                               | _ => false
                               end) (submodules (KUSPhy.KUSSerdes mode)))
     = [Encoder 4 true; Decoder true; Decoder true; Decoder true;
        Decoder true].
Proof.
  intros o group lane.
  destruct (rx_word_settled mode e) as [Hk Hd]. fold o in Hk, Hd.
  pose proof (tx_group_settled mode e) as Hg. fold group in Hg.
  pose proof (encoder_inputs_settled mode e)
    as (K0 & K1 & K2 & K3 & D0 & D1 & D2 & D3).
  fold o in K0, K1, K2, K3, D0, D1, D2, D3.
  pose proof (decoder_inputs_settled mode e) as Hin. fold o in Hin.
  clearbody o group. subst lane. cbv beta.
  split; [|split; [|split; [|split; [|split; [|split; [|split]]]]]].
  - intros i Hi Hc. apply Z.eqb_eq in Hc.
    rewrite Hc in K0, K1, K2, K3, D0, D1, D2, D3.
    cbn [negb] in K0, K1, K2, K3, D0, D1, D2, D3.
    destruct i as [|[|[|[|i]]]]; [| | | |lia]; split; assumption.
  - intros i Hi Hidle. apply Z.eqb_eq in Hidle. rewrite Hidle in Hg.
    rewrite Hg. now apply Cat_lane.
  - rewrite Hg. destruct (e "tx_idle" =? 0); [|lia].
    apply (Cat_lanes_range KUSPhy.encoder_output 10 e); [lia|reflexivity].
  - exact Hin.
  - intros i Hi. rewrite Hk, Hd. split; now apply Cat_lane.
  - rewrite Hd.
    apply (Cat_lanes_range KUSPhy.decoders_d 8 e); [lia|reflexivity].
  - rewrite Hk.
    apply (Cat_lanes_range KUSPhy.decoders_k 1 e); [lia|reflexivity].
  - cbv [KUSPhy.KUSSerdes submodules].
    destruct (KUSPhy.is_mode mode "master"); reflexivity.
Qed.

Lemma C6_four_lanes_witness :
  (2 < 4)%nat /\ KUSPhy.data_env "tx_comma" = 0
  /\ KUSPhy.settle "master" KUSPhy.data_env "self.encoder.d[2]" = 0xad.
Proof.
  split; [lia|]. split; [reflexivity|].
  exact (proj1 (proj1 (C6_four_lanes "master" KUSPhy.data_env) 2%nat
                      ltac:(lia) eq_refl)).
Defined.

(** *** Master and slave *)

Lemma settle_same_datapath (e e' : env) :
  KUSPhy.same_datapath e e' ->
  KUSPhy.same_datapath (KUSPhy.settle "master" e) (KUSPhy.settle "slave" e').
Proof.
  intros H x Hx1 Hx2.
  pose proof (H x Hx1 Hx2) as Hx.
  apply String.eqb_neq in Hx1, Hx2.
  cbv [KUSPhy.settle KUSPhy.KUSSerdes comb KUSPhy.is_mode].
  cbn [String.eqb Ascii.eqb Bool.eqb].
  kus_eval.
  rewrite ?Hx1, ?Hx2, ?Hx. cbn.
  repeat match goal with
         | |- context [e ?n] => rewrite (H n) by (intro; discriminate)
         end.
  reflexivity.
Qed.

Lemma edge_same_datapath (e e' : env) :
  KUSPhy.same_datapath e e' ->
  KUSPhy.same_datapath (KUSPhy.edge "master" e) (KUSPhy.edge "slave" e').
Proof.
  intros H x Hx1 Hx2.
  pose proof (H x Hx1 Hx2) as Hx.
  cbv [KUSPhy.edge KUSPhy.KUSSerdes sync sync_of run_sync
       KUSPhy.tx_datapath_sync].
  cbn. cbv [sig C upd]. cbn.
  rewrite ?Hx.
  repeat match goal with
         | |- context [e ?n] => rewrite (H n) by (intro; discriminate)
         end.
  reflexivity.
Qed.

Section ModeFacts.
Variable L : KUSPhy.Library.

Lemma load_same (st : KUSPhy.State L) (i : KUSPhy.Inputs) :
  KUSPhy.same_datapath (KUSPhy.load L st i) (KUSPhy.load L st i).
Proof. intros x _ _. reflexivity. Qed.

Lemma wires_same_datapath (st : KUSPhy.State L) (i : KUSPhy.Inputs) :
  KUSPhy.same_datapath (KUSPhy.wires L "master" st i) (KUSPhy.wires L "slave" st i).
Proof.
  unfold KUSPhy.wires. apply settle_same_datapath.
  pose proof (settle_same_datapath _ _ (load_same st i)) as H1.
  intros x Hx1 Hx2. unfold upd.
  destruct (String.eqb x (name KUSPhy.rx_bitslip_o)).
  - apply f_equal2; apply H1; intro; discriminate.
  - now apply H1.
Qed.

Lemma observe_same (st : KUSPhy.State L) (i : KUSPhy.Inputs) :
  KUSPhy.observe (KUSPhy.wires L "master" st i)
  = KUSPhy.observe (KUSPhy.wires L "slave" st i).
Proof.
  pose proof (wires_same_datapath st i) as H.
  unfold KUSPhy.observe.
  repeat match goal with
         | |- context [KUSPhy.wires L "master" st i ?n] =>
             rewrite (H n) by (cbn; intro; discriminate)
         end.
  reflexivity.
Qed.

Lemma next_same (st : KUSPhy.State L) (i : KUSPhy.Inputs) :
  KUSPhy.next L "master" st i = KUSPhy.next L "slave" st i.
Proof.
  pose proof (wires_same_datapath st i) as H.
  pose proof (edge_same_datapath _ _ H) as He.
  unfold KUSPhy.next. cbn [map KUSPhy.lanes seq].
  rewrite (He (name KUSPhy.tx_gearbox_i)) by (cbn; intro; discriminate).
  repeat match goal with
         | |- context [KUSPhy.wires L "master" st i ?n] =>
             rewrite (H n) by (cbn; intro; discriminate)
         end.
  reflexivity.
Qed.

Lemma run_same (ins : list KUSPhy.Inputs) :
  forall st : KUSPhy.State L,
    KUSPhy.run L "master" st ins = KUSPhy.run L "slave" st ins.
Proof.
  induction ins as [|i ins IH]; intros st; cbn [KUSPhy.run]; [reflexivity|].
  rewrite observe_same, next_same. apply f_equal, IH.
Qed.

End ModeFacts.


Lemma clk_pattern_value : KUSPhy.clk_pattern = 0xf83e0f83e0.
Proof. reflexivity. Qed.

(** C8.  Run from the same state over the same inputs, a master and a
    slave serdes produce the same line groups and the same [rx_k], [rx_d],
    [rx_idle] and [rx_comma], for any encoder, decoders and bitslip.  The two
    elaborations drive every signal alike except [tx_clk_gearbox.i] and
    [refclk], and have the same synchronous statements, specials and
    submodules apart from the reference clock: the master sends the pattern
    0b1111100000 x 4 through its own gearbox and OSERDESE3/OBUFDS to the clk
    pads, the slave takes the clk pads through IBUFDS, BUFR and BUFG into
    [refclk]. *)
Theorem C8_mode_changes_only_clocking
  (L : KUSPhy.Library) (st : KUSPhy.State L) (ins : list KUSPhy.Inputs) :
  let master := KUSPhy.KUSSerdes "master" in
  let slave := KUSPhy.KUSSerdes "slave" in
  let other (A : Type) (f : A -> bool) := fun x => negb (f x) in
  (* the same inputs give the same line groups and the same rx outputs *)
  KUSPhy.run L "master" st ins = KUSPhy.run L "slave" st ins
  (* every wire and register but the two clock signals is driven alike *)
  /\ (forall e, KUSPhy.same_datapath (KUSPhy.settle "master" e)
                                     (KUSPhy.settle "slave" e)
                /\ KUSPhy.same_datapath (KUSPhy.edge "master" e)
                                        (KUSPhy.edge "slave" e))
  /\ sync master = sync slave
  /\ filter (other _ KUSPhy.clock_special) (specials master)
     = filter (other _ KUSPhy.clock_special) (specials slave)
  /\ filter (other _ KUSPhy.clock_submodule) (submodules master)
     = filter (other _ KUSPhy.clock_submodule) (submodules slave)
  (* master: the clock pattern goes through its own gearbox to the pads *)
  /\ (forall e, KUSPhy.settle "master" e "self.tx_clk_gearbox.i"
                = 0xf83e0f83e0)
  /\ filter KUSPhy.clock_submodule (submodules master)
     = [ mkPlaced "tx_clk_gearbox" (Gearbox 40 "sys0p2x" 8 "sys") [] ]
  /\ filter KUSPhy.clock_special (specials master)
     = [ KUSPhy.oserdese3 KUSPhy.clk_o KUSPhy.tx_clk_gearbox_o;
         KUSPhy.obufds KUSPhy.clk_o KUSPhy.pads_clk_p KUSPhy.pads_clk_n ]
  (* slave: the pads are buffered into refclk *)
  /\ (forall e, KUSPhy.settle "slave" e "self.refclk"
                = trunc 1 (e "clk_i_bufg"))
  /\ filter KUSPhy.clock_submodule (submodules slave) = []
  /\ filter KUSPhy.clock_special (specials slave)
     = [ Instance "IBUFDS"
           [ ("i_I", ASig KUSPhy.pads_clk_p); ("i_IB", ASig KUSPhy.pads_clk_n);
             ("o_O", ASig KUSPhy.clk_i) ];
         Instance "BUFR"
           [ ("i_I", ASig KUSPhy.clk_i); ("o_O", ASig KUSPhy.clk_i_bufr) ];
         Instance "BUFG"
           [ ("i_I", ASig KUSPhy.clk_i_bufr);
             ("o_O", ASig KUSPhy.clk_i_bufg) ] ].
Proof.
  intros master slave other. subst master slave other.
  split; [apply run_same|].
  split.
  { intros e. split.
    - apply settle_same_datapath. intros x _ _. reflexivity.
    - apply edge_same_datapath. intros x _ _. reflexivity. }
  repeat match goal with |- _ /\ _ => split end; try reflexivity;
    intros e; kus_eval; try destruct (e "tx_comma" =? 0); reflexivity.
Qed.

(** *** Idle *)

Lemma rx_idle_settled (mode : string) (e : env) :
  KUSPhy.settle mode e "rx_idle" = b2z (e "self.rx_bitslip.o" =? 0).
Proof. kus_cases mode; apply trunc_b2z. Qed.

(** C10. With [tx_idle] up, the register that feeds the transmit gearbox
    loads 0 at the sys0p2x edge, whatever the encoder outputs; [rx_idle] is
    up exactly when the 40-bit group after bitslip is 0; so the group sent
    under [tx_idle], arriving as the peer's group after bitslip, raises the
    peer's [rx_idle]. *)
Theorem C10_idle (mode : string) (e : env) :
  let group := KUSPhy.edge mode e "self.tx_gearbox.i" in
  let o := KUSPhy.settle mode e in
  (e "tx_idle" <> 0 -> group = 0)
  /\ (o "rx_idle" = 1 <-> e "self.rx_bitslip.o" = 0)
  /\ (o "rx_idle" = 0 \/ o "rx_idle" = 1)
  /\ (e "tx_idle" <> 0 ->
      forall (peer_mode : string) (rx : env),
        KUSPhy.settle peer_mode (upd "self.rx_bitslip.o" group rx) "rx_idle"
        = 1).
Proof.
  intros group o.
  assert (Hg : e "tx_idle" <> 0 -> group = 0).
  { intros H. subst group. rewrite tx_group_settled.
    apply Z.eqb_neq in H. now rewrite H. }
  subst o. split; [exact Hg|]. split; [|split].
  - rewrite rx_idle_settled, b2z_1. apply Z.eqb_eq.
  - rewrite rx_idle_settled. destruct (_ =? _); auto.
  - intros H peer_mode rx. rewrite rx_idle_settled, (Hg H). reflexivity.
Qed.

Lemma C10_idle_witness :
  KUSPhy.idle_env "tx_idle" <> 0
  /\ KUSPhy.edge "master" KUSPhy.idle_env "self.tx_gearbox.i" = 0.
Proof.
  split; [discriminate|].
  apply (proj1 (C10_idle "master" KUSPhy.idle_env)). discriminate.
Defined.

(** *** Bitslip *)

(** The serdes hands the six-bit control to the [value] port of the
    bitslip unchanged from its synchronizer. *)
Lemma bitslip_value_forwarded (mode : string) (e : env) :
  let v := KUSPhy.settle mode e "self.rx_bitslip.value" in
  v = trunc 6 (e "rx_bitslip_value")
  /\ 0 <= v < 64
  /\ (0 <= e "rx_bitslip_value" < 64 -> v = e "rx_bitslip_value")
  /\ nbits KUSPhy.self_rx_bitslip_value = 6
  /\ In (MultiReg KUSPhy.self_rx_bitslip_value KUSPhy.rx_bitslip_value
                  "sys0p2x")
        (specials (KUSPhy.KUSSerdes mode)).
Proof.
  intros v.
  assert (Hv : v = trunc 6 (e "rx_bitslip_value")).
  { subst v. kus_cases mode; reflexivity. }
  split; [exact Hv|]. split; [|split; [|split; [reflexivity|]]].
  - rewrite Hv. apply (trunc_range 6). lia.
  - intros H. rewrite Hv. apply trunc_small; [lia|exact H].
  - apply control_status_cdc_placed. cbn. auto 8.
Qed.

Lemma bitslip_group_forwarded (mode : string) (e : env) :
  KUSPhy.settle mode e "self.rx_bitslip.i" = trunc 40 (e "self.rx_gearbox.o").
Proof. kus_cases mode; reflexivity. Qed.

Lemma bitslip_placed (mode : string) :
  In (mkPlaced "rx_bitslip" (BitSlip 40) (renamer "sys0p2x"))
     (submodules (KUSPhy.KUSSerdes mode)).
Proof.
  cbn [submodules KUSPhy.KUSSerdes].
  rewrite !in_app_iff. do 4 right. cbn. auto.
Qed.

(** A value selects a rotation exactly when it is one of the dw positions,
    and then selects itself. *)
Lemma rotation_some (dw v k : Z) :
  Genlib.rotation dw v = Some k -> k = v /\ 0 <= v < dw.
Proof.
  unfold Genlib.rotation, Genlib.rotations. intros H.
  apply find_some in H. destruct H as [Hin Heq].
  apply Z.eqb_eq in Heq. subst k.
  apply in_map_iff in Hin. destruct Hin as [n [Hn Hs]].
  apply in_seq in Hs. split; [reflexivity|lia].
Qed.

Lemma rotation_in_range (dw v : Z) :
  0 <= v < dw -> Genlib.rotation dw v = Some v.
Proof.
  intros H. destruct (Genlib.rotation dw v) as [k|] eqn:E.
  - apply rotation_some in E. destruct E as [-> _]. reflexivity.
  - exfalso. unfold Genlib.rotation in E.
    assert (Hin : In v (Genlib.rotations dw)).
    { unfold Genlib.rotations. apply in_map_iff. exists (Z.to_nat v).
      split; [lia|]. apply in_seq. lia. }
    pose proof (find_none _ _ E _ Hin) as Hv. cbv beta in Hv.
    rewrite Z.eqb_refl in Hv. discriminate Hv.
Qed.

Lemma rotation_none (dw v : Z) :
  Genlib.rotation dw v = None -> ~ (0 <= v < dw).
Proof.
  intros E H. rewrite (rotation_in_range _ _ H) in E. discriminate E.
Qed.

(** C7.  The alignment offset applied to the 40-bit receive group is
    always an integer in [0, 40).  The serdes places one [BitSlip(40)] in
    sys0p2x, feeds it the group of the receive gearbox and hands it the
    six-bit control [rx_bitslip_value] unchanged.  At an edge, a rotation
    the control selects is the control's own value, lies in [0, 40), and is
    the offset of the 40 bits the output loads from the window; a control
    that selects none is one of 40 .. 63, and then no offset is applied:
    the output holds.  Every control in [0, 40) is applied. *)
Theorem C7_applied_offset_below_40
  (mode : string) (e : env) (s : Genlib.BitSlipRegs) :
  let o := KUSPhy.settle mode e in
  let v := o "self.rx_bitslip.value" in
  let s' := Genlib.bitslip_next 40 s (o "self.rx_bitslip.i") v in
  In (mkPlaced "rx_bitslip" (BitSlip 40) (renamer "sys0p2x"))
     (submodules (KUSPhy.KUSSerdes mode))
  /\ v = trunc 6 (e "rx_bitslip_value")
  /\ o "self.rx_bitslip.i" = trunc 40 (e "self.rx_gearbox.o")
  /\ (forall k, Genlib.rotation 40 v = Some k ->
        0 <= k < 40 /\ k = v
        /\ Genlib.shown s' = slice k (40 + k) (Genlib.window s))
  /\ (Genlib.rotation 40 v = None ->
        40 <= v < 64 /\ Genlib.shown s' = Genlib.shown s)
  /\ (0 <= e "rx_bitslip_value" < 40 ->
        Genlib.rotation 40 v = Some (e "rx_bitslip_value")).
Proof.
  intros o v s'.
  destruct (bitslip_value_forwarded mode e) as [Hv [Hr [Hs _]]].
  fold o in Hv, Hr, Hs. fold v in Hv, Hr, Hs.
  split; [apply bitslip_placed|].
  split; [exact Hv|].
  split; [apply bitslip_group_forwarded|].
  split; [|split].
  - intros k Hk. pose proof (rotation_some _ _ _ Hk) as [Hkv Hin].
    split; [lia|]. split; [exact Hkv|].
    subst s'. unfold Genlib.bitslip_next. cbn [Genlib.shown].
    rewrite Hk. reflexivity.
  - intros Hn. pose proof (rotation_none _ _ Hn) as Hout.
    split; [lia|].
    subst s'. unfold Genlib.bitslip_next. cbn [Genlib.shown].
    rewrite Hn. reflexivity.
  - intros H. rewrite (Hs ltac:(lia)). apply rotation_in_range. exact H.
Qed.

Lemma C7_applied_offset_below_40_witness :
  0 <= KUSPhy.data_env "rx_bitslip_value" < 40
  /\ Genlib.rotation 40
       (KUSPhy.settle "slave" KUSPhy.data_env "self.rx_bitslip.value")
     = Some (KUSPhy.data_env "rx_bitslip_value").
Proof.
  assert (H : 0 <= KUSPhy.data_env "rx_bitslip_value" < 40)
    by (cbv; split; congruence).
  split; [exact H|].
  exact (proj2 (proj2 (proj2 (proj2 (proj2
           (C7_applied_offset_below_40 "slave" KUSPhy.data_env
              (Genlib.mkBitSlipRegs 0 0)))))) H).
Defined.

(* ================================================================== *)
(** ** The clock-domain bridge *)
(* ================================================================== *)

Lemma bridge_step_inv (r : Bridge.Run) (ev : Bridge.edge) :
  Bridge.inv r -> Bridge.inv (Bridge.step r ev).
Proof.
  unfold Bridge.inv. destruct r as [[d w c] acc del].
  cbn [Bridge.accepted Bridge.delivered Bridge.fifo Bridge.contents
       Bridge.depth].
  intros [Hacc Hlen].
  destruct ev as [v x|rdy];
    cbv [Bridge.step Bridge.sink_ready Bridge.source_valid];
    cbn [Bridge.accepted Bridge.delivered Bridge.fifo Bridge.contents
         Bridge.depth Bridge.width].
  - destruct v; cbn [andb]; [|split; assumption].
    destruct (Nat.ltb_spec (length c) d); [|split; assumption].
    cbn [Bridge.accepted Bridge.delivered Bridge.fifo Bridge.contents
         Bridge.depth].
    split.
    + rewrite Hacc. now rewrite <- app_assoc.
    + rewrite length_app. cbn [length]. lia.
  - destruct rdy, c as [|y rest]; cbn; try (split; assumption).
    split.
    + rewrite Hacc. now rewrite <- app_assoc.
    + cbn [length] in Hlen. lia.
Qed.

Lemma bridge_fold_inv (tr : list Bridge.edge) :
  forall r, Bridge.inv r -> Bridge.inv (fold_left Bridge.step tr r).
Proof.
  induction tr as [|ev tr IH]; intros r Hr; cbn [fold_left]; [exact Hr|].
  apply IH, bridge_step_inv, Hr.
Qed.

Lemma bridge_step_shape (r : Bridge.Run) (ev : Bridge.edge) :
  Bridge.depth (Bridge.fifo (Bridge.step r ev)) = Bridge.depth (Bridge.fifo r)
  /\ Bridge.width (Bridge.fifo (Bridge.step r ev))
     = Bridge.width (Bridge.fifo r).
Proof.
  destruct r as [[d w c] acc del].
  destruct ev as [v x|rdy];
    cbv [Bridge.step Bridge.sink_ready Bridge.source_valid];
    cbn [Bridge.fifo Bridge.contents Bridge.depth Bridge.width].
  - destruct (v && (length c <? d)%nat); split; reflexivity.
  - destruct rdy, c; split; reflexivity.
Qed.

Lemma bridge_fold_shape (tr : list Bridge.edge) :
  forall r,
    Bridge.depth (Bridge.fifo (fold_left Bridge.step tr r))
    = Bridge.depth (Bridge.fifo r)
    /\ Bridge.width (Bridge.fifo (fold_left Bridge.step tr r))
       = Bridge.width (Bridge.fifo r).
Proof.
  induction tr as [|ev tr IH]; intros r; cbn [fold_left]; [split; reflexivity|].
  destruct (IH (Bridge.step r ev)) as [Hd Hw].
  destruct (bridge_step_shape r ev) as [Hd' Hw'].
  split; congruence.
Qed.

Lemma bridge_step_handshake (r : Bridge.Run) (ev : Bridge.edge) :
  (Bridge.accepted (Bridge.step r ev) <> Bridge.accepted r ->
   Bridge.sink_ready (Bridge.fifo r) = true
   /\ exists d, ev = Bridge.WriteEdge true d)
  /\ (Bridge.delivered (Bridge.step r ev) <> Bridge.delivered r ->
      Bridge.source_valid (Bridge.fifo r) = true
      /\ ev = Bridge.ReadEdge true).
Proof.
  destruct r as [[d w c] acc del].
  destruct ev as [v x|rdy];
    cbv [Bridge.step Bridge.sink_ready Bridge.source_valid];
    cbn [Bridge.accepted Bridge.delivered Bridge.fifo Bridge.contents
         Bridge.depth Bridge.width].
  - destruct v, (length c <? d)%nat; cbn [andb Bridge.accepted
                                          Bridge.delivered];
      split; intros H; try congruence.
    split; [reflexivity|]. now exists x.
  - destruct rdy, c as [|y rest]; cbn; split; intros H; try congruence.
    split; reflexivity.
Qed.

(** Seventeen words offered to an empty FIFO of depth 16 with nobody
    reading: sixteen are taken, the last one waits at the sink; a read edge
    then hands over the oldest. *)
Example fifo_fills_up :
  let writes := map (fun n => Bridge.WriteEdge true (Z.of_nat n)) (seq 1 17) in
  let full := Bridge.run 16 32 writes in
  Bridge.accepted full = map Z.of_nat (seq 1 16)
  /\ Bridge.sink_ready (Bridge.fifo full) = false
  /\ Bridge.delivered
       (Bridge.run 16 32 (writes ++ [Bridge.ReadEdge true])) = [1].
Proof. vm_compute. repeat split; reflexivity. Qed.

(** C5.  [SERWBCore] places exactly two [AsyncFIFO([("data", 32)], 16)]:
    [tx_cdc], written in sys and read in [phy.cd], and [rx_cdc], written in
    [phy.cd] and read in sys.  Every stream connection of the core joins two
    endpoints of one clock domain, so words change domain only inside a
    FIFO.  Each FIFO, run from reset over any interleaving of write and read
    edges, holds at most 16 words, takes a word only when it is not full
    and the producer offers one, hands a word over only when it holds one
    and the consumer is ready, and what it has accepted is what it has
    delivered followed by what it still holds, in order. *)
Theorem C5_bridge_is_two_bounded_fifos
  (phy_cd : string) (clk_freq : Z) (mode : string) (ws : option bool)
  (user_bits : Z) :
  let core := Core.SERWBCore phy_cd clk_freq mode ws user_bits in
  let dom := Core.domain_of phy_cd clk_freq mode ws user_bits in
  let tx_cdc := mkPlaced "tx_cdc" (AsyncFIFO [("data", 32)] 16)
                         [("write", "sys"); ("read", phy_cd)] in
  let rx_cdc := mkPlaced "rx_cdc" (AsyncFIFO [("data", 32)] 16)
                         [("write", phy_cd); ("read", "sys")] in
  (* two FIFOs of 32-bit words, 16 deep, one per direction *)
  filter Core.is_fifo (submodules core) = [tx_cdc; rx_cdc]
  /\ Bridge.of_placed tx_cdc = Some (Bridge.reset 16 32)
  /\ Bridge.of_placed rx_cdc = Some (Bridge.reset 16 32)
  /\ dom Core.tx_cdc_sink = Some "sys"
  /\ dom Core.tx_cdc_source = Some phy_cd
  /\ dom Core.rx_cdc_sink = Some phy_cd
  /\ dom Core.rx_cdc_source = Some "sys"
  (* every stream connection of the core stays within one domain, so the
     only way across is through a FIFO *)
  /\ Forall (fun l => dom (fst l) = dom (snd l))
            (Core.stream_links user_bits)
  /\ Forall (fun ep => dom ep = Some phy_cd) Core.serdes_side
  /\ (forall e,
        Forall (fun l => wired e (Core.settle phy_cd clk_freq mode ws
                                              user_bits e)
                               (fst l) (snd l))
               (Core.stream_links user_bits))
  (* each FIFO, under any interleaving of write and read edges *)
  /\ (forall tr : list Bridge.edge,
        let r := Bridge.run 16 32 tr in
        Bridge.accepted r
        = (Bridge.delivered r ++ Bridge.contents (Bridge.fifo r))%list
        /\ (length (Bridge.contents (Bridge.fifo r)) <= 16)%nat
        /\ forall ev,
             (Bridge.accepted (Bridge.step r ev) <> Bridge.accepted r ->
              Bridge.sink_ready (Bridge.fifo r) = true
              /\ exists d, ev = Bridge.WriteEdge true d)
             /\ (Bridge.delivered (Bridge.step r ev) <> Bridge.delivered r ->
                 Bridge.source_valid (Bridge.fifo r) = true
                 /\ ev = Bridge.ReadEdge true)).
Proof.
  intros core dom tx_cdc rx_cdc. subst core dom tx_cdc rx_cdc.
  split; [reflexivity|]. split; [reflexivity|]. split; [reflexivity|].
  split; [reflexivity|]. split; [reflexivity|]. split; [reflexivity|].
  split; [reflexivity|].
  split; [repeat constructor|]. split; [repeat constructor|].
  split.
  { intros e.
    destruct (core_settled phy_cd clk_freq mode ws user_bits e)
      as (W1 & W2 & W3 & _ & _ & _ & _ & _ & _ & W4 & W5 & W6 & _).
    cbv [Core.stream_links].
    repeat (apply Forall_cons; [cbn [fst snd]; assumption|]).
    apply Forall_nil. }
  intros tr r.
  assert (Hinv : Bridge.inv r).
  { apply bridge_fold_inv. split; [reflexivity|cbn; lia]. }
  destruct Hinv as [Hacc Hlen].
  destruct (bridge_fold_shape tr (Bridge.reset 16 32)) as [Hd _].
  fold (Bridge.run 16 32 tr) in Hd. fold r in Hd. cbn in Hd.
  rewrite Hd in Hlen.
  split; [exact Hacc|]. split; [exact Hlen|].
  intros ev. apply bridge_step_handshake.
Qed.

Lemma C5_bridge_is_two_bounded_fifos_witness :
  Bridge.accepted (Bridge.step (Bridge.run 16 32 []) (Bridge.WriteEdge true 7))
  <> Bridge.accepted (Bridge.run 16 32 [])
  /\ Bridge.sink_ready (Bridge.fifo (Bridge.run 16 32 [])) = true.
Proof.
  assert (H : Bridge.accepted
                (Bridge.step (Bridge.run 16 32 []) (Bridge.WriteEdge true 7))
              <> Bridge.accepted (Bridge.run 16 32 [])) by discriminate.
  split; [exact H|].
  pose proof (C5_bridge_is_two_bounded_fifos "sys0p2x" 125000000 "master"
                None 64) as C5.
  cbv zeta in C5.
  destruct C5 as (_ & _ & _ & _ & _ & _ & _ & _ & _ & _ & Hq).
  destruct (Hq []) as (_ & _ & Hs).
  exact (proj1 (proj1 (Hs (Bridge.WriteEdge true 7)) H)).
Defined.

(* ================================================================== *)
(** ** Scrambling bypass *)
(* ================================================================== *)

Section WhiteningFacts.
Variable state : Type.
Variable advance : state -> Z -> state.
Variable mask : state -> Z.

Lemma lxor_cancel (w m : Z) : Z.lxor (Z.lxor w m) m = w.
Proof. now rewrite Z.lxor_assoc, Z.lxor_nilpotent, Z.lxor_0_r. Qed.

(** With the same LFSR state on both sides the descrambler undoes the
    scrambler. *)
Lemma descramble_scramble (enable : bool) (ws : list Z) :
  forall s,
    Whitening.descramble state advance mask enable s
      (Whitening.scramble state advance mask enable s ws) = ws.
Proof.
  destruct enable; cbn [Whitening.descramble Whitening.scramble];
    [|reflexivity].
  induction ws as [|w ws IH]; intros s; cbn; [reflexivity|].
  rewrite lxor_cancel. f_equal. apply IH.
Qed.

End WhiteningFacts.

(** C9.  [SERWBCore] takes [with_scrambling], true when omitted, and
    builds both the Scrambler and the Descrambler with [enable] equal to it;
    with [with_scrambling] false both leave the word stream as it is. *)
Theorem C9_scrambling_bypass
  (phy_cd : string) (clk_freq : Z) (mode : string) (user_bits : Z)
  (state : Type) (advance : state -> Z -> state) (mask : state -> Z)
  (s : state) (ws : list Z) :
  let enable_of w := Core.enable_of phy_cd clk_freq mode w user_bits in
  (* the default *)
  Core.with_scrambling_arg None = true
  /\ enable_of None "scrambler" = Some true
  /\ enable_of None "descrambler" = Some true
  (* enable is the parameter *)
  /\ (forall b : bool,
        Core.with_scrambling_arg (Some b) = b
        /\ enable_of (Some b) "scrambler" = Some b
        /\ enable_of (Some b) "descrambler" = Some b)
  (* bypass *)
  /\ (forall en,
        enable_of (Some false) "scrambler" = Some en ->
        Whitening.scramble state advance mask en s ws = ws)
  /\ (forall en,
        enable_of (Some false) "descrambler" = Some en ->
        Whitening.descramble state advance mask en s ws = ws).
Proof.
  intros enable_of. subst enable_of.
  split; [reflexivity|]. split; [reflexivity|]. split; [reflexivity|].
  split; [intros b; repeat split; reflexivity|].
  split; intros en H; cbv in H; injection H as <-; reflexivity.
Qed.

Lemma C9_scrambling_bypass_witness :
  Core.enable_of "sys0p2x" 125000000 "master" (Some false) 64 "scrambler"
  = Some false
  /\ Whitening.scramble Z Z.lxor (fun s => s) false 5 [1; 2; 3] = [1; 2; 3].
Proof.
  split; [reflexivity|].
  apply (C9_scrambling_bypass "sys0p2x" 125000000 "master" 64
           Z Z.lxor (fun s => s) 5 [1; 2; 3]).
  reflexivity.
Defined.

(* ================================================================== *)
(** ** kusphy.py: the word seen through the lanes *)
(* ================================================================== *)

(** Two adjacent slices make the slice that spans them. *)
Lemma slice_glue (a b c x : Z) :
  0 <= a -> a <= b -> b <= c ->
  Z.lor (slice a b x) (Z.shiftl (slice b c x) (b - a)) = slice a c x.
Proof.
  intros Ha Hb Hc. apply Z.bits_inj'. intros n Hn.
  rewrite Z.lor_spec, Z.shiftl_spec by lia.
  rewrite (slice_testbit a b), (slice_testbit a c) by lia.
  destruct (Z.ltb_spec n (b - a)).
  - rewrite (Z.testbit_neg_r _ (n - (b - a))) by lia.
    rewrite orb_false_r. f_equal.
    symmetry. apply Z.ltb_lt. lia.
  - rewrite andb_false_r, orb_false_l.
    rewrite slice_testbit by lia.
    replace (n - (b - a) + b) with (n + a) by lia. f_equal.
    destruct (Z.ltb_spec (n - (b - a)) (c - b)), (Z.ltb_spec n (c - a));
      try reflexivity; lia.
Qed.

Lemma slice_from_0 (w x : Z) : slice 0 w x = trunc w x.
Proof. unfold slice. now rewrite Z.shiftr_0_r, Z.sub_0_r. Qed.

(** Four bytes, low first, joined as [Cat] joins them. *)
Lemma join_bytes (x : Z) :
  Z.lor (trunc 8 (slice 0 8 x))
    (Z.shiftl
       (Z.lor (trunc 8 (slice 8 16 x))
          (Z.shiftl
             (Z.lor (trunc 8 (slice 16 24 x))
                (Z.shiftl (Z.lor (trunc 8 (slice 24 32 x)) (Z.shiftl 0 8)) 8))
             8)) 8)
  = trunc 32 x.
Proof.
  rewrite Z.shiftl_0_l, Z.lor_0_r.
  rewrite (trunc_slice 0 8), (trunc_slice 8 16), (trunc_slice 16 24),
    (trunc_slice 24 32).
  rewrite (slice_glue 16 24 32), (slice_glue 8 16 32), (slice_glue 0 8 32)
    by lia.
  apply slice_from_0.
Qed.

Lemma join_bits (x : Z) :
  Z.lor (trunc 1 (slice 0 1 x))
    (Z.shiftl
       (Z.lor (trunc 1 (slice 1 2 x))
          (Z.shiftl
             (Z.lor (trunc 1 (slice 2 3 x))
                (Z.shiftl (Z.lor (trunc 1 (slice 3 4 x)) (Z.shiftl 0 1)) 1))
             1)) 1)
  = trunc 4 x.
Proof.
  rewrite Z.shiftl_0_l, Z.lor_0_r.
  rewrite (trunc_slice 0 1), (trunc_slice 1 2), (trunc_slice 2 3),
    (trunc_slice 3 4).
  rewrite (slice_glue 2 3 4), (slice_glue 1 2 4), (slice_glue 0 1 4) by lia.
  apply slice_from_0.
Qed.

(** What a receiver presents when its decoders hand back what the
    encoder of [tx] was given. *)
Lemma looped_word (mode peer : string) (e rx : env) :
  let o := KUSPhy.settle mode e in
  let p := KUSPhy.settle peer (KUSPhy.decoded_from o rx) in
  let comma := negb (e "tx_comma" =? 0) in
  p "self.rx_k" = (if comma then 1 else trunc 4 (e "self.tx_k"))
  /\ p "self.rx_d" = (if comma then 0xbc else trunc 32 (e "self.tx_d")).
Proof.
  intros o p comma.
  destruct (rx_word_settled peer (KUSPhy.decoded_from o rx)) as [Hk Hd].
  fold p in Hk, Hd. rewrite Hk, Hd. clear Hk Hd p.
  pose proof (encoder_inputs_settled mode e)
    as (K0 & K1 & K2 & K3 & D0 & D1 & D2 & D3).
  fold o comma in K0, K1, K2, K3, D0, D1, D2, D3. clearbody o comma.
  cbn [map seq Cat]. cbv [KUSPhy.decoded_from upd]. cbn.
  rewrite K0, K1, K2, K3, D0, D1, D2, D3.
  destruct comma.
  - split; reflexivity.
  - split; [apply join_bits|apply join_bytes].
Qed.

(** X2.  A data word crosses the four lanes unchanged: with [tx_comma]
    down and a word that fits [tx_k] and [tx_d], a receiver whose decoders
    hand back what the encoder was given presents the same [rx_k] and
    [rx_d]. *)
Theorem X2_word_round_trip (mode peer : string) (e rx : env) :
  e "tx_comma" = 0 ->
  Netlist.fits e KUSPhy.self_tx_k ->
  Netlist.fits e KUSPhy.self_tx_d ->
  let p := KUSPhy.settle peer
             (KUSPhy.decoded_from (KUSPhy.settle mode e) rx) in
  p "self.rx_k" = e "self.tx_k" /\ p "self.rx_d" = e "self.tx_d".
Proof.
  intros Hc Fk Fd p. destruct (looped_word mode peer e rx) as [Hk Hd].
  fold p in Hk, Hd. rewrite Hk, Hd, Hc. cbn [Z.eqb negb].
  split; apply trunc_small; try lia; assumption.
Qed.

Lemma X2_word_round_trip_witness :
  KUSPhy.data_env "tx_comma" = 0
  /\ Netlist.fits KUSPhy.data_env KUSPhy.self_tx_k
  /\ Netlist.fits KUSPhy.data_env KUSPhy.self_tx_d
  /\ KUSPhy.settle "slave"
       (KUSPhy.decoded_from (KUSPhy.settle "master" KUSPhy.data_env)
                            KUSPhy.idle_env) "self.rx_d" = 0xdeadbeef.
Proof.
  assert (Fk : Netlist.fits KUSPhy.data_env KUSPhy.self_tx_k)
    by (cbv; split; congruence).
  assert (Fd : Netlist.fits KUSPhy.data_env KUSPhy.self_tx_d)
    by (cbv; split; congruence).
  split; [reflexivity|]. split; [exact Fk|]. split; [exact Fd|].
  exact (proj2 (X2_word_round_trip "master" "slave" KUSPhy.data_env
                  KUSPhy.idle_env eq_refl Fk Fd)).
Defined.

(** X3.  Under [tx_comma] the word on [tx_k]/[tx_d] is not sent: whatever
    it is, the same receiver presents [rx_k] = 0b0001 and [rx_d] =
    0x000000BC. *)
Theorem X3_comma_replaces_the_word (mode peer : string) (e rx : env) :
  e "tx_comma" <> 0 ->
  forall k d : Z,
    let e' := upd "self.tx_k" k (upd "self.tx_d" d e) in
    let p := KUSPhy.settle peer
               (KUSPhy.decoded_from (KUSPhy.settle mode e') rx) in
    p "self.rx_k" = 1 /\ p "self.rx_d" = 0xbc.
Proof.
  intros Hc k d e' p.
  destruct (looped_word mode peer e' rx) as [Hk Hd]. fold p in Hk, Hd.
  assert (Hc' : (e' "tx_comma" =? 0) = false) by (apply Z.eqb_neq; exact Hc).
  rewrite Hc' in Hk, Hd. split; assumption.
Qed.

Lemma X3_comma_replaces_the_word_witness :
  KUSPhy.comma_env "tx_comma" <> 0
  /\ KUSPhy.settle "slave"
       (KUSPhy.decoded_from
          (KUSPhy.settle "master"
             (upd "self.tx_k" 0 (upd "self.tx_d" 0x12345678 KUSPhy.comma_env)))
          KUSPhy.idle_env) "self.rx_d" = 0xbc.
Proof.
  assert (H : KUSPhy.comma_env "tx_comma" <> 0) by discriminate.
  split; [exact H|].
  exact (proj2 (X3_comma_replaces_the_word "master" "slave" KUSPhy.comma_env
                  KUSPhy.idle_env H 0 0x12345678)).
Defined.

(** The decoders' outputs, read as the words they spell. *)
Lemma word_is_comma (e : env) :
  Forall (Netlist.fits e)
         (map KUSPhy.decoders_d (seq 0 4) ++ map KUSPhy.decoders_k (seq 0 4)) ->
  (Cat (map KUSPhy.decoders_k (seq 0 4)) e = 1
   /\ Cat (map KUSPhy.decoders_d (seq 0 4)) e = 0xbc)
  <->
  (e "self.decoders[0].k" = 1 /\ e "self.decoders[0].d" = 0xbc)
  /\ (e "self.decoders[1].k" = 0 /\ e "self.decoders[1].d" = 0x00)
  /\ (e "self.decoders[2].k" = 0 /\ e "self.decoders[2].d" = 0x00)
  /\ (e "self.decoders[3].k" = 0 /\ e "self.decoders[3].d" = 0x00).
Proof.
  intros F. cbn [map seq app] in F.
  repeat match goal with
         | H : Forall _ (_ :: _) |- _ =>
             let H1 := fresh "F" in
             let H2 := fresh "R" in
             inversion H as [|? ? H1 H2]; subst; clear H; rename H2 into F
         end.
  unfold Netlist.fits in *. cbn [name nbits] in *.
  pose proof (Cat_lane KUSPhy.decoders_d 8 e) as Ld.
  pose proof (Cat_lane KUSPhy.decoders_k 1 e) as Lk.
  split.
  - intros [Hk Hd].
    pose proof (Ld 0%nat ltac:(lia) (fun _ => eq_refl) ltac:(lia)) as D0.
    pose proof (Ld 1%nat ltac:(lia) (fun _ => eq_refl) ltac:(lia)) as D1.
    pose proof (Ld 2%nat ltac:(lia) (fun _ => eq_refl) ltac:(lia)) as D2.
    pose proof (Ld 3%nat ltac:(lia) (fun _ => eq_refl) ltac:(lia)) as D3.
    pose proof (Lk 0%nat ltac:(lia) (fun _ => eq_refl) ltac:(lia)) as K0.
    pose proof (Lk 1%nat ltac:(lia) (fun _ => eq_refl) ltac:(lia)) as K1.
    pose proof (Lk 2%nat ltac:(lia) (fun _ => eq_refl) ltac:(lia)) as K2.
    pose proof (Lk 3%nat ltac:(lia) (fun _ => eq_refl) ltac:(lia)) as K3.
    rewrite Hd in D0, D1, D2, D3. rewrite Hk in K0, K1, K2, K3.
    clear Ld Lk Hk Hd.
    cbn [name KUSPhy.decoders_d KUSPhy.decoders_k] in D0, D1, D2, D3,
      K0, K1, K2, K3.
    rewrite trunc_small in D0, D1, D2, D3, K0, K1, K2, K3 by (try lia; assumption).
    repeat split; symmetry; assumption.
  - intros ((K0 & D0) & (K1 & D1) & (K2 & D2) & (K3 & D3)).
    cbn [map seq Cat]. cbn [name nbits KUSPhy.decoders_d KUSPhy.decoders_k].
    cbv [KUSPhy.ix]. cbn [Nat.to_uint NilEmpty.string_of_uint String.append
                         Nat.to_little_uint Decimal.Little.succ Decimal.rev
                         Decimal.revapp].
    rewrite K0, K1, K2, K3, D0, D1, D2, D3. split; reflexivity.
Qed.

(** X1.  The comma flag and the word agree: with the decoders' outputs
    within their widths, [rx_comma] is 1 exactly when [rx_k] is 0b0001 and
    [rx_d] is 0x000000BC. *)
Theorem X1_rx_comma_matches_the_word (mode : string) (e : env) :
  Forall (Netlist.fits e)
         (map KUSPhy.decoders_d (seq 0 4) ++ map KUSPhy.decoders_k (seq 0 4)) ->
  let o := KUSPhy.settle mode e in
  o "rx_comma" = 1 <-> (o "self.rx_k" = 1 /\ o "self.rx_d" = 0xbc).
Proof.
  intros F o. destruct (rx_word_settled mode e) as [Hk Hd].
  fold o in Hk, Hd. rewrite Hk, Hd. subst o.
  rewrite (word_is_comma e F).
  rewrite rx_comma_settled, b2z_1, !andb_true_iff, !Z.eqb_eq. tauto.
Qed.

Lemma X1_rx_comma_matches_the_word_witness :
  Forall (Netlist.fits KUSPhy.comma_word_env)
         (map KUSPhy.decoders_d (seq 0 4) ++ map KUSPhy.decoders_k (seq 0 4))
  /\ KUSPhy.settle "slave" KUSPhy.comma_word_env "self.rx_d" = 0xbc.
Proof.
  assert (F : Forall (Netlist.fits KUSPhy.comma_word_env)
                (map KUSPhy.decoders_d (seq 0 4)
                 ++ map KUSPhy.decoders_k (seq 0 4))).
  { repeat constructor; discriminate. }
  split; [exact F|].
  apply (proj1 (X1_rx_comma_matches_the_word "slave" KUSPhy.comma_word_env F)).
  reflexivity.
Defined.


(* ================================================================== *)
(** ** Drivers *)
(* ================================================================== *)

Lemma existsb_eqb_In (x : string) (l : list string) :
  existsb (String.eqb x) l = true <-> In x l.
Proof.
  rewrite existsb_exists. split.
  - intros (y & Hy & E). apply String.eqb_eq in E. now subst.
  - intros H. exists x. split; [exact H|apply String.eqb_refl].
Qed.

Lemma distinct_NoDup (l : list string) :
  Netlist.distinct l = true -> NoDup l.
Proof.
  induction l as [|x l IH]; cbn [Netlist.distinct]; intros H; constructor.
  - apply andb_true_iff in H. destruct H as [H _].
    intros Hin. apply existsb_eqb_In in Hin. rewrite Hin in H. discriminate.
  - apply IH. apply andb_true_iff in H. tauto.
Qed.

Lemma not_In_by_eqb (x : string) (l : list string) :
  existsb (String.eqb x) l = false -> ~ In x l.
Proof.
  intros H Hin. apply existsb_eqb_In in Hin. congruence.
Qed.

(** X6.  Whatever the mode, no signal of the serdes has two drivers:
    every signal is assigned by at most one combinational or synchronous
    statement or driven by at most one special. *)
Theorem X6_serdes_one_driver_per_signal (mode : string) :
  NoDup (Netlist.drivers (KUSPhy.KUSSerdes mode)).
Proof.
  apply distinct_NoDup.
  cbv [KUSPhy.KUSSerdes Netlist.drivers comb sync specials].
  destruct (KUSPhy.is_mode mode "master"), (KUSPhy.is_mode mode "slave");
    vm_compute; reflexivity.
Qed.

(** X7.  No signal is assigned by two statements of [SERWBCore]. *)
Theorem X7_core_one_driver_per_signal
  (phy_cd : string) (clk_freq : Z) (mode : string) (ws : option bool)
  (user_bits : Z) :
  NoDup (Netlist.drivers (Core.SERWBCore phy_cd clk_freq mode ws user_bits)).
Proof. apply distinct_NoDup. vm_compute. reflexivity. Qed.

(** X8.  Direction of the pads: in every mode the serdes drives the tx
    pads and never the rx pads; it drives the clk pads exactly when the
    mode is "master", and drives [refclk] exactly when it is "slave". *)
Theorem X8_pad_directions (mode : string) :
  let driven x := In x (Netlist.drivers (KUSPhy.KUSSerdes mode)) in
  (driven "pads.tx_p" /\ driven "pads.tx_n")
  /\ (~ driven "pads.rx_p" /\ ~ driven "pads.rx_n")
  /\ (driven "pads.clk_p" <-> mode = "master")
  /\ (driven "pads.clk_n" <-> mode = "master")
  /\ (driven "self.refclk" <-> mode = "slave").
Proof.
  intros driven. subst driven. cbv beta.
  cbv [KUSPhy.KUSSerdes Netlist.drivers comb sync specials KUSPhy.is_mode].
  destruct (String.eqb_spec mode "master") as [Em|Em];
    destruct (String.eqb_spec mode "slave") as [Es|Es];
    try (exfalso; congruence).
  all: repeat match goal with
         | |- _ /\ _ => split
         | |- _ <-> _ => split; intros H0
         end.
  all: try assumption.
  all: try (apply existsb_eqb_In; vm_compute; reflexivity).
  all: try (apply not_In_by_eqb; vm_compute; reflexivity).
  all: try (exfalso; revert H0; apply not_In_by_eqb; vm_compute; reflexivity).
  all: try (exfalso; congruence).
Qed.

(* ================================================================== *)
(** ** Modes other than master and slave; combinational feedback *)
(* ================================================================== *)

(** Every mode drives every signal but the two clock signals as a master
    does. *)
Lemma settle_like_master (m : string) (e e' : env) :
  KUSPhy.same_datapath e e' ->
  KUSPhy.same_datapath (KUSPhy.settle m e) (KUSPhy.settle "master" e').
Proof.
  intros H x Hx1 Hx2.
  pose proof (H x Hx1 Hx2) as Hx.
  apply String.eqb_neq in Hx1, Hx2.
  cbv [KUSPhy.settle KUSPhy.KUSSerdes comb].
  destruct (KUSPhy.is_mode m "master"), (KUSPhy.is_mode m "slave");
    kus_eval; rewrite ?Hx1, ?Hx2, ?Hx; cbn;
    repeat match goal with
           | |- context [e ?n] => rewrite (H n) by (intro; discriminate)
           end;
    reflexivity.
Qed.

(** X9.  The mode is not validated.  A serdes built with a mode that is
    neither "master" nor "slave" has the whole datapath (every signal but
    [tx_clk_gearbox.i] and [refclk] is driven as in a master) and no
    reference clock at all: no clock special, no clock gearbox, and the
    two clock signals are left undriven. *)
Theorem X9_unknown_mode_has_no_reference_clock (mode : string) :
  mode <> "master" -> mode <> "slave" ->
  let m := KUSPhy.KUSSerdes mode in
  (forall e, KUSPhy.same_datapath (KUSPhy.settle mode e)
                                  (KUSPhy.settle "master" e))
  /\ sync m = sync (KUSPhy.KUSSerdes "master")
  /\ filter KUSPhy.clock_special (specials m) = []
  /\ filter KUSPhy.clock_submodule (submodules m) = []
  /\ (forall x, In x KUSPhy.clock_nets -> ~ In x (Netlist.drivers m))
  /\ (forall e, KUSPhy.settle mode e "self.tx_clk_gearbox.i"
                = e "self.tx_clk_gearbox.i"
                /\ KUSPhy.settle mode e "self.refclk" = e "self.refclk").
Proof.
  intros Hm Hs m. subst m.
  split.
  { intros e. apply settle_like_master. intros x _ _. reflexivity. }
  apply String.eqb_neq in Hm, Hs.
  cbv [KUSPhy.KUSSerdes KUSPhy.settle Netlist.drivers comb sync specials
       submodules KUSPhy.is_mode].
  rewrite Hm, Hs.
  split; [reflexivity|]. split; [reflexivity|]. split; [reflexivity|].
  split.
  - intros x Hx. cbn in Hx.
    repeat (destruct Hx as [<-|Hx];
            [apply not_In_by_eqb; vm_compute; reflexivity|]).
    contradiction.
  - intros e. kus_eval. destruct (e "tx_comma" =? 0); split; reflexivity.
Qed.

Lemma X9_unknown_mode_has_no_reference_clock_witness :
  "loopback" <> "master" /\ "loopback" <> "slave"
  /\ filter KUSPhy.clock_special (specials (KUSPhy.KUSSerdes "loopback")) = [].
Proof.
  assert (Hm : "loopback" <> "master") by discriminate.
  assert (Hs : "loopback" <> "slave") by discriminate.
  split; [exact Hm|]. split; [exact Hs|].
  exact (proj1 (proj2 (proj2
           (X9_unknown_mode_has_no_reference_clock "loopback" Hm Hs)))).
Defined.

(** X4.  The serdes has no combinational feedback: its statements read
    no signal they drive, so a settled cycle is a fixed point of them, in
    every mode. *)
Theorem X4_serdes_settles_in_one_pass (mode : string) (e : env) (x : string) :
  KUSPhy.settle mode (KUSPhy.settle mode e) x = KUSPhy.settle mode e x.
Proof. apply settle_stable. Qed.

(** X5.  [SERWBCore] has no combinational feedback either: a settled
    cycle is a fixed point of its statements. *)
Theorem X5_core_settles_in_one_pass
  (phy_cd : string) (clk_freq : Z) (mode : string) (ws : option bool)
  (user_bits : Z) (e : env) (x : string) :
  let settle := Core.settle phy_cd clk_freq mode ws user_bits in
  settle (settle e) x = settle e x.
Proof.
  intros settle. subst settle. comb_eval.
  destruct (e "phy.init.ready" =? 0) eqn:E; cbn; rewrite ?E; cbn;
    destruct (e "scrambler.source.valid" =? 0) eqn:E'; cbn;
    rewrite ?E, ?E'; cbn; rewrite ?E, ?E'; cbn;
    by_name x; reflexivity.
Qed.

(* ================================================================== *)
(** ** kusphy.py: the two directions do not interact *)
(* ================================================================== *)

Lemma agree_at (names : list string) (e e' : env) (n : string) :
  Duplex.agree names e e' -> existsb (String.eqb n) names = true ->
  e n = e' n.
Proof.
  intros H Hn. apply existsb_exists in Hn. destruct Hn as (x & Hx & E).
  apply String.eqb_eq in E. subst x.
  unfold Duplex.agree in H. rewrite Forall_forall in H. now apply H.
Qed.

Lemma agree_upd (names : list string) (e e' : env) (n : string) (v v' : Z) :
  Duplex.agree names e e' ->
  (existsb (String.eqb n) names = true -> v = v') ->
  Duplex.agree names (upd n v e) (upd n v' e').
Proof.
  unfold Duplex.agree. rewrite !Forall_forall. intros H Hv x Hx.
  unfold upd. destruct (String.eqb_spec x n) as [->|Hne]; [|now apply H].
  apply Hv. apply existsb_exists. exists n. split; [exact Hx|].
  apply String.eqb_refl.
Qed.

Lemma agree_app_l (l l' : list string) (e e' : env) :
  Duplex.agree (l ++ l') e e' -> Duplex.agree l e e'.
Proof. unfold Duplex.agree. intros H. now apply Forall_app in H. Qed.

Ltac take_apart H :=
  repeat match type of H with
         | Forall _ (_ :: _) =>
             let E := fresh "E" in
             let R := fresh "R" in
             inversion H as [|? ? E R]; subst; clear H; rename R into H
         end.

Ltac settle_agrees mode e e' :=
  repeat (apply Forall_cons; [|]); [..|apply Forall_nil];
    kus_cases mode;
    try destruct (e "tx_comma" =? 0); try destruct (e' "tx_comma" =? 0);
    repeat match goal with
           | H : e ?n = e' ?n |- _ => rewrite ?H; clear H
           end;
    reflexivity.

Section DuplexFacts.
Variable L : KUSPhy.Library.
Variable mode : string.

(** The receive signals of a settled cycle are a function of the receive
    signals it read. *)
Lemma settle_rx (e e' : env) :
  Duplex.agree Duplex.rx_reads e e' ->
  Duplex.agree (Duplex.rx_reads ++ Duplex.rx_drives)
               (KUSPhy.settle mode e) (KUSPhy.settle mode e').
Proof.
  unfold Duplex.agree. intros H. cbn in H. take_apart H.
  cbn [Duplex.rx_reads Duplex.rx_drives map KUSPhy.lanes seq app].
  settle_agrees mode e e'.
Qed.

Lemma settle_tx (e e' : env) :
  Duplex.agree Duplex.tx_reads e e' ->
  Duplex.agree (Duplex.tx_reads ++ Duplex.tx_drives)
               (KUSPhy.settle mode e) (KUSPhy.settle mode e').
Proof.
  unfold Duplex.agree. intros H. cbn in H. take_apart H.
  cbn [Duplex.tx_reads Duplex.tx_drives map KUSPhy.lanes seq app].
  repeat (apply Forall_cons; [|]); [..|apply Forall_nil];
    kus_cases mode;
    repeat match goal with
           | H : e ?n = e' ?n |- _ => rewrite ?H; clear H
           end;
    try destruct (e' "tx_comma" =? 0); reflexivity.
Qed.

Lemma edge_tx (e e' : env) :
  Duplex.agree Duplex.tx_reads e e' ->
  KUSPhy.edge mode e "self.tx_gearbox.i"
  = KUSPhy.edge mode e' "self.tx_gearbox.i".
Proof.
  unfold Duplex.agree. intros H. cbn in H. take_apart H.
  rewrite !tx_group_settled. cbn [map seq Cat].
  cbn [name nbits KUSPhy.encoder_output]. cbv [KUSPhy.ix]. cbn.
  repeat match goal with
         | H : e ?n = e' ?n |- _ => rewrite ?H; clear H
         end.
  reflexivity.
Qed.

Lemma wires_rx (st st' : KUSPhy.State L) (i i' : KUSPhy.Inputs) :
  Duplex.same_rx_state st st' ->
  Duplex.rx_inputs i = Duplex.rx_inputs i' ->
  Duplex.agree (Duplex.rx_reads ++ Duplex.rx_drives)
               (KUSPhy.wires L mode st i) (KUSPhy.wires L mode st' i').
Proof.
  intros [Hd Hb] Hi. unfold Duplex.rx_inputs in Hi. injection Hi as Hv Hg.
  assert (H0 : Duplex.agree Duplex.rx_reads
                 (KUSPhy.load L st i) (KUSPhy.load L st' i')).
  { unfold Duplex.agree.
    cbn [Duplex.rx_reads map KUSPhy.lanes seq app].
    repeat (apply Forall_cons; [|]); [..|apply Forall_nil];
      cbv [KUSPhy.load KUSPhy.lanes upd]; cbn; rewrite ?Hd, ?Hv, ?Hg;
      reflexivity. }
  pose proof (settle_rx _ _ H0) as H1.
  unfold KUSPhy.wires. cbv zeta.
  apply settle_rx. apply agree_upd.
  - exact (agree_app_l _ _ _ _ H1).
  - intros _. rewrite Hb.
    apply f_equal2; apply (agree_at _ _ _ _ H1); reflexivity.
Qed.

Lemma wires_tx (st st' : KUSPhy.State L) (i i' : KUSPhy.Inputs) :
  Duplex.same_tx_state st st' ->
  Duplex.tx_inputs i = Duplex.tx_inputs i' ->
  Duplex.agree (Duplex.tx_reads ++ Duplex.tx_drives)
               (KUSPhy.wires L mode st i) (KUSPhy.wires L mode st' i').
Proof.
  intros [He Hg] Hi. unfold Duplex.tx_inputs in Hi.
  injection Hi as Hk Hd Hc Hidle.
  assert (H0 : Duplex.agree Duplex.tx_reads
                 (KUSPhy.load L st i) (KUSPhy.load L st' i')).
  { unfold Duplex.agree.
    cbn [Duplex.tx_reads map KUSPhy.lanes seq app].
    repeat (apply Forall_cons; [|]); [..|apply Forall_nil];
      cbv [KUSPhy.load KUSPhy.lanes upd]; cbn;
      rewrite ?He, ?Hg, ?Hk, ?Hd, ?Hc, ?Hidle; reflexivity. }
  pose proof (settle_tx _ _ H0) as H1.
  unfold KUSPhy.wires. cbv zeta.
  apply settle_tx. apply agree_upd.
  - exact (agree_app_l _ _ _ _ H1).
  - intros H. discriminate H.
Qed.

Lemma rx_step (st st' : KUSPhy.State L) (i i' : KUSPhy.Inputs) :
  Duplex.same_rx_state st st' ->
  Duplex.rx_inputs i = Duplex.rx_inputs i' ->
  Duplex.rx_outputs (KUSPhy.observe (KUSPhy.wires L mode st i))
  = Duplex.rx_outputs (KUSPhy.observe (KUSPhy.wires L mode st' i'))
  /\ Duplex.same_rx_state (KUSPhy.next L mode st i) (KUSPhy.next L mode st' i').
Proof.
  intros Hs Hi. pose proof (wires_rx st st' i i' Hs Hi) as H.
  destruct Hs as [Hd Hb].
  assert (A : forall n,
             existsb (String.eqb n) (Duplex.rx_reads ++ Duplex.rx_drives)
             = true ->
             KUSPhy.wires L mode st i n = KUSPhy.wires L mode st' i' n).
  { intros n Hn. now apply (agree_at _ _ _ _ H). }
  clear H.
  unfold Duplex.rx_outputs, KUSPhy.observe, Duplex.same_rx_state, KUSPhy.next.
  cbn [KUSPhy.out_rx_k KUSPhy.out_rx_d KUSPhy.out_rx_idle KUSPhy.out_rx_comma
       KUSPhy.decs KUSPhy.bs map KUSPhy.lanes seq].
  rewrite Hd, Hb.
  repeat match goal with
         | |- context [KUSPhy.wires L mode st i ?n] =>
             rewrite (A n) by reflexivity
         end.
  repeat split.
Qed.

Lemma tx_step (st st' : KUSPhy.State L) (i i' : KUSPhy.Inputs) :
  Duplex.same_tx_state st st' ->
  Duplex.tx_inputs i = Duplex.tx_inputs i' ->
  KUSPhy.out_line_group (KUSPhy.observe (KUSPhy.wires L mode st i))
  = KUSPhy.out_line_group (KUSPhy.observe (KUSPhy.wires L mode st' i'))
  /\ Duplex.same_tx_state (KUSPhy.next L mode st i) (KUSPhy.next L mode st' i').
Proof.
  intros Hs Hi. pose proof (wires_tx st st' i i' Hs Hi) as H.
  pose proof (edge_tx _ _ (agree_app_l _ _ _ _ H)) as He.
  destruct Hs as [Hen Hg].
  assert (A : forall n,
             existsb (String.eqb n) (Duplex.tx_reads ++ Duplex.tx_drives)
             = true ->
             KUSPhy.wires L mode st i n = KUSPhy.wires L mode st' i' n).
  { intros n Hn. now apply (agree_at _ _ _ _ H). }
  clear H.
  unfold KUSPhy.observe, Duplex.same_tx_state, KUSPhy.next.
  cbn [KUSPhy.out_line_group KUSPhy.enc KUSPhy.tx_gearbox_i_reg map
       KUSPhy.lanes seq].
  change (name KUSPhy.tx_gearbox_i) with "self.tx_gearbox.i".
  rewrite Hen, He.
  repeat match goal with
         | |- context [KUSPhy.wires L mode st i ?n] =>
             rewrite (A n) by reflexivity
         end.
  repeat split.
Qed.

Lemma rx_run (ins : list KUSPhy.Inputs) :
  forall (ins' : list KUSPhy.Inputs) (st st' : KUSPhy.State L),
    Duplex.same_rx_state st st' ->
    map Duplex.rx_inputs ins = map Duplex.rx_inputs ins' ->
    map Duplex.rx_outputs (KUSPhy.run L mode st ins)
    = map Duplex.rx_outputs (KUSPhy.run L mode st' ins').
Proof.
  induction ins as [|i ins IH]; intros [|i' ins'] st st' Hs E;
    try discriminate; [reflexivity|].
  cbn [map] in E.
  pose proof (f_equal (@tl _) E) as Et. cbn [tl] in Et.
  pose proof (f_equal (fun l => hd (Duplex.rx_inputs i) l) E) as Ei.
  cbn [hd] in Ei.
  destruct (rx_step st st' i i' Hs Ei) as [Ho Hn].
  cbn [KUSPhy.run map]. rewrite Ho. apply f_equal. now apply IH.
Qed.

Lemma tx_run (ins : list KUSPhy.Inputs) :
  forall (ins' : list KUSPhy.Inputs) (st st' : KUSPhy.State L),
    Duplex.same_tx_state st st' ->
    map Duplex.tx_inputs ins = map Duplex.tx_inputs ins' ->
    map KUSPhy.out_line_group (KUSPhy.run L mode st ins)
    = map KUSPhy.out_line_group (KUSPhy.run L mode st' ins').
Proof.
  induction ins as [|i ins IH]; intros [|i' ins'] st st' Hs E;
    try discriminate; [reflexivity|].
  cbn [map] in E.
  pose proof (f_equal (@tl _) E) as Et. cbn [tl] in Et.
  pose proof (f_equal (fun l => hd (Duplex.tx_inputs i) l) E) as Ei.
  cbn [hd] in Ei.
  destruct (tx_step st st' i i' Hs Ei) as [Ho Hn].
  cbn [KUSPhy.run map]. rewrite Ho. apply f_equal. now apply IH.
Qed.

End DuplexFacts.

(** X10.  Receive does not depend on transmit: two runs of the serdes
    that start with the same decoders and bitslip and get the same receive
    groups and bitslip values give the same [rx_k], [rx_d], [rx_idle] and
    [rx_comma] in every cycle, whatever is asked of the transmitter
    ([tx_k], [tx_d], [tx_comma], [tx_idle]) and whatever state the encoder
    is in. *)
Theorem X10_receive_independent_of_transmit
  (L : KUSPhy.Library) (mode : string) (st st' : KUSPhy.State L)
  (ins ins' : list KUSPhy.Inputs) :
  Duplex.same_rx_state st st' ->
  map Duplex.rx_inputs ins = map Duplex.rx_inputs ins' ->
  map Duplex.rx_outputs (KUSPhy.run L mode st ins)
  = map Duplex.rx_outputs (KUSPhy.run L mode st' ins').
Proof. intros Hs E. now apply rx_run. Qed.

(** X11.  Transmit does not depend on receive: two runs that start with
    the same encoder state and gearbox register and get the same [tx_k],
    [tx_d], [tx_comma] and [tx_idle] send the same line groups in every
    cycle, whatever arrives on the receive side and whatever the bitslip
    value is. *)
Theorem X11_transmit_independent_of_receive
  (L : KUSPhy.Library) (mode : string) (st st' : KUSPhy.State L)
  (ins ins' : list KUSPhy.Inputs) :
  Duplex.same_tx_state st st' ->
  map Duplex.tx_inputs ins = map Duplex.tx_inputs ins' ->
  map KUSPhy.out_line_group (KUSPhy.run L mode st ins)
  = map KUSPhy.out_line_group (KUSPhy.run L mode st' ins').
Proof. intros Hs E. now apply tx_run. Qed.

Lemma X10_receive_independent_of_transmit_witness :
  map Duplex.rx_outputs
    (KUSPhy.run KUSPhy.toy_library "master" KUSPhy.toy_reset
       [KUSPhy.comma_cycle 0x1bc; KUSPhy.comma_cycle 0x1bc])
  = map Duplex.rx_outputs
      (KUSPhy.run KUSPhy.toy_library "master"
         (@KUSPhy.mkState KUSPhy.toy_library [0x1bc; 0; 0; 0] [0; 0; 0; 0]
            (Genlib.mkBitSlipRegs 0 0) 7)
         [KUSPhy.idle_cycle 0x1bc; KUSPhy.data_cycle 1 2 0x1bc]).
Proof.
  apply X10_receive_independent_of_transmit.
  - split; reflexivity.
  - reflexivity.
Defined.

Lemma X11_transmit_independent_of_receive_witness :
  map KUSPhy.out_line_group
    (KUSPhy.run KUSPhy.toy_library "slave" KUSPhy.toy_reset
       [KUSPhy.data_cycle 1 2 0; KUSPhy.data_cycle 3 4 0x1bc])
  = map KUSPhy.out_line_group
      (KUSPhy.run KUSPhy.toy_library "slave"
         (@KUSPhy.mkState KUSPhy.toy_library [0; 0; 0; 0] [0x1bc; 0; 0; 0]
            (Genlib.mkBitSlipRegs 0x1bc 0x1bc) 0)
         [KUSPhy.data_cycle 1 2 0x3ff; KUSPhy.data_cycle 3 4 0]).
Proof.
  apply X11_transmit_independent_of_receive.
  - split; reflexivity.
  - reflexivity.
Defined.

(* ================================================================== *)
(** ** core.py: no endpoint is left dangling *)
(* ================================================================== *)

(** X14.  Every stream endpoint the core touches is connected the right
    way round: the core drives the ready of each source and never its
    valid or payload, and drives the valid and the payload of each sink and
    never its ready. *)
Theorem X14_endpoints_connected
  (phy_cd : string) (clk_freq : Z) (mode : string) (ws : option bool)
  (user_bits : Z) :
  let driven x :=
    In x (Netlist.drivers (Core.SERWBCore phy_cd clk_freq mode ws user_bits)) in
  let payload ep := map (fun fw => name (field ep (fst fw) (snd fw)))
                        (description ep) in
  Forall (fun ep => driven (name (ready ep))
                    /\ ~ driven (name (valid ep))
                    /\ Forall (fun x => ~ driven x) (payload ep))
         (Core.sources user_bits)
  /\ Forall (fun ep => driven (name (valid ep))
                       /\ ~ driven (name (ready ep))
                       /\ Forall driven (payload ep))
            (Core.sinks user_bits).
Proof.
  intros driven payload. subst driven payload. cbv beta.
  cbv [Core.sources Core.sinks Core.stream_links map fst snd app].
  split.
  all: repeat (apply Forall_cons; [|]); [..|apply Forall_nil].
  all: cbv [description Core.user_description Core.phy_description
            Core.etherbone_sink Core.etherbone_source Core.packetizer_sink
            Core.packetizer_source Core.depacketizer_sink
            Core.depacketizer_source Core.tx_cdc_sink Core.tx_cdc_source
            Core.rx_cdc_sink Core.rx_cdc_source Core.scrambler_sink
            Core.scrambler_source Core.descrambler_sink
            Core.descrambler_source map fst snd].
  all: repeat match goal with
         | |- _ /\ _ => split
         | |- Forall _ (_ :: _) => apply Forall_cons
         | |- Forall _ [] => apply Forall_nil
         end.
  all: first [ apply existsb_eqb_In; vm_compute; reflexivity
             | apply not_In_by_eqb; vm_compute; reflexivity ].
Qed.

(* ================================================================== *)
(** ** kusphy.py: an idle cycle still feeds the encoder *)
(* ================================================================== *)

Section IdleFacts.
Variable L : KUSPhy.Library.
Variable mode : string.

Lemma settle_enc (e e' : env) :
  Duplex.agree Duplex.enc_reads e e' ->
  Duplex.agree (Duplex.enc_reads ++ Duplex.tx_drives)
               (KUSPhy.settle mode e) (KUSPhy.settle mode e').
Proof.
  unfold Duplex.agree. intros H. unfold Duplex.enc_reads in H. take_apart H.
  cbn [Duplex.enc_reads Duplex.tx_drives map KUSPhy.lanes seq app].
  repeat (apply Forall_cons; [|]); [..|apply Forall_nil];
    kus_cases mode;
    repeat match goal with
           | H : e ?n = e' ?n |- _ => rewrite ?H; clear H
           end;
    try destruct (e' "tx_comma" =? 0); reflexivity.
Qed.

Lemma settle_keeps_tx_idle (e : env) :
  KUSPhy.settle mode e "tx_idle" = e "tx_idle".
Proof. kus_cases mode; destruct (e "tx_comma" =? 0); reflexivity. Qed.

Lemma wires_tx_idle (st : KUSPhy.State L) (i : KUSPhy.Inputs) :
  KUSPhy.wires L mode st i "tx_idle" = KUSPhy.in_tx_idle i.
Proof.
  unfold KUSPhy.wires. cbv zeta. rewrite settle_keeps_tx_idle.
  unfold upd at 1. cbn [String.eqb Ascii.eqb Bool.eqb name KUSPhy.rx_bitslip_o].
  rewrite settle_keeps_tx_idle. reflexivity.
Qed.

Lemma wires_enc (st : KUSPhy.State L) (i : KUSPhy.Inputs) (idle : Z) :
  Duplex.agree (Duplex.enc_reads ++ Duplex.tx_drives)
               (KUSPhy.wires L mode st i)
               (KUSPhy.wires L mode st (Duplex.with_tx_idle idle i)).
Proof.
  assert (H0 : Duplex.agree Duplex.enc_reads
                 (KUSPhy.load L st i)
                 (KUSPhy.load L st (Duplex.with_tx_idle idle i))).
  { unfold Duplex.agree. cbn [Duplex.enc_reads].
    repeat (apply Forall_cons; [|]); [..|apply Forall_nil]; reflexivity. }
  pose proof (settle_enc _ _ H0) as H1.
  unfold KUSPhy.wires. cbv zeta.
  apply settle_enc. apply agree_upd.
  - exact (agree_app_l _ _ _ _ H1).
  - intros H. discriminate H.
Qed.

End IdleFacts.

(** X15.  [tx_idle] silences the line but does not hold the transmitter:
    in a cycle with [tx_idle] up the gearbox register loads 0, and the
    encoder takes the word on [tx_k]/[tx_d] (or the comma) and moves to the
    same state as it would with [tx_idle] down. *)
Theorem X15_idle_does_not_hold_the_encoder
  (L : KUSPhy.Library) (mode : string) (st : KUSPhy.State L)
  (i : KUSPhy.Inputs) :
  KUSPhy.in_tx_idle i <> 0 ->
  KUSPhy.tx_gearbox_i_reg (KUSPhy.next L mode st i) = 0
  /\ KUSPhy.enc (KUSPhy.next L mode st i)
     = KUSPhy.enc (KUSPhy.next L mode st (Duplex.with_tx_idle 0 i)).
Proof.
  intros Hidle. split.
  - unfold KUSPhy.next. cbn [KUSPhy.tx_gearbox_i_reg].
    change (name KUSPhy.tx_gearbox_i) with "self.tx_gearbox.i".
    rewrite tx_group_settled, wires_tx_idle.
    apply Z.eqb_neq in Hidle. now rewrite Hidle.
  - pose proof (wires_enc L mode st i 0) as H.
    assert (A : forall n,
               existsb (String.eqb n) (Duplex.enc_reads ++ Duplex.tx_drives)
               = true ->
               KUSPhy.wires L mode st i n
               = KUSPhy.wires L mode st (Duplex.with_tx_idle 0 i) n).
    { intros n Hn. now apply (agree_at _ _ _ _ H). }
    unfold KUSPhy.next. cbn [KUSPhy.enc map KUSPhy.lanes seq].
    repeat match goal with
           | |- context [KUSPhy.wires L mode st i ?n] =>
               rewrite (A n) by reflexivity
           end.
    reflexivity.
Qed.

Lemma X15_idle_does_not_hold_the_encoder_witness :
  KUSPhy.in_tx_idle (KUSPhy.idle_cycle 0) <> 0
  /\ KUSPhy.tx_gearbox_i_reg
       (KUSPhy.next KUSPhy.toy_library "master" KUSPhy.toy_reset
          (KUSPhy.idle_cycle 0)) = 0.
Proof.
  assert (H : KUSPhy.in_tx_idle (KUSPhy.idle_cycle 0) <> 0) by discriminate.
  split; [exact H|].
  exact (proj1 (X15_idle_does_not_hold_the_encoder KUSPhy.toy_library
                  "master" KUSPhy.toy_reset (KUSPhy.idle_cycle 0) H)).
Defined.

(* ================================================================== *)
(** ** nexys.py: the reset sequencer of [_CRG] *)
(* ================================================================== *)

(** The two registers after one edge. *)
Lemma crg_edge_regs (s : env) (rst : Z) :
  Nexys.crg_edge s rst "reset_counter"
  = (if rst =? 0
     then if s "reset_counter" =? 0 then s "reset_counter"
          else trunc 4 (s "reset_counter" - 1)
     else 15)
  /\ Nexys.crg_edge s rst "ic_reset"
     = (if rst =? 0
        then if s "reset_counter" =? 0 then 0 else s "ic_reset"
        else 1).
Proof.
  unfold Nexys.crg_edge.
  destruct (rst =? 0); [|split; reflexivity].
  cbv [Nexys.CRG sync sync_of Nexys.crg_sync run_sync]. cbn.
  cbv [Nexys.nev Nexys.sub sig C upd]. cbn.
  destruct (s "reset_counter" =? 0); cbn; split; reflexivity.
Qed.

Lemma quiet_from_snoc (rsts : list Z) (r : Z) :
  forall n,
    Nexys.quiet_from n (rsts ++ [r])
    = if r =? 0 then S (Nexys.quiet_from n rsts) else 0%nat.
Proof.
  induction rsts as [|x rsts IH]; intros n; cbn [app Nexys.quiet_from].
  - reflexivity.
  - apply IH.
Qed.

(** The registers are a function of the number of edges since the last
    reset. *)
Lemma crg_run_regs (rsts : list Z) :
  let q := Z.of_nat (Nexys.quiet rsts) in
  Nexys.crg_run rsts "reset_counter" = Z.max 0 (15 - q)
  /\ Nexys.crg_run rsts "ic_reset" = (if q <=? 15 then 1 else 0).
Proof.
  induction rsts as [|r rsts IH] using rev_ind.
  - split; reflexivity.
  - cbv zeta in IH |- *. unfold Nexys.quiet, Nexys.crg_run in *.
    rewrite fold_left_app, quiet_from_snoc. cbn [fold_left].
    destruct IH as [Hc Hi].
    destruct (crg_edge_regs
                (fold_left Nexys.crg_edge rsts (Nexys.at_reset (fun _ => 0))) r)
      as [Ec Ei].
    rewrite Ec, Ei, Hc, Hi. clear Ec Ei Hc Hi.
    set (q := Z.of_nat (Nexys.quiet_from 0 rsts)).
    assert (Hq : 0 <= q) by (subst q; lia).
    destruct (r =? 0); [|split; reflexivity].
    rewrite Nat2Z.inj_succ. fold q.
    destruct (Z.eqb_spec (Z.max 0 (15 - q)) 0) as [E|E].
    + split.
      * lia.
      * destruct (Z.leb_spec q 15), (Z.leb_spec (Z.succ q) 15);
          try reflexivity; lia.
    + assert (q < 15) by lia.
      split.
      * rewrite trunc_small; lia.
      * destruct (Z.leb_spec q 15), (Z.leb_spec (Z.succ q) 15);
          try reflexivity; lia.
Qed.

Lemma quiet_snoc (rsts : list Z) (r : Z) :
  Nexys.quiet (rsts ++ [r])
  = if r =? 0 then S (Nexys.quiet rsts) else 0%nat.
Proof. apply quiet_from_snoc. Qed.

(** [quiet] counts the reset-free edges at the end of the history. *)
Lemma quiet_ge_iff (rsts : list Z) :
  forall k : nat,
    (k <= Nexys.quiet rsts)%nat <->
    exists pre tail,
      rsts = (pre ++ tail)%list /\ length tail = k
      /\ Forall (fun r => r = 0) tail.
Proof.
  induction rsts as [|r rsts IH] using rev_ind; intros k.
  - cbn. split.
    + intros H. exists [], []. repeat split; [cbn; lia|constructor].
    + intros (pre & tail & E & Hl & _).
      symmetry in E. apply app_eq_nil in E. destruct E as [_ ->].
      cbn in Hl. lia.
  - rewrite quiet_snoc. split.
    + intros H. destruct k as [|k].
      { exists (rsts ++ [r])%list, []. rewrite app_nil_r.
        repeat split. constructor. }
      destruct (Z.eqb_spec r 0) as [->|Hr]; [|lia].
      apply le_S_n in H. apply IH in H.
      destruct H as (pre & tail & -> & Hl & Hz).
      exists pre, (tail ++ [0])%list. rewrite app_assoc.
      repeat split.
      * rewrite length_app. cbn. lia.
      * apply Forall_app. split; [exact Hz|repeat constructor].
    + intros (pre & tail & E & Hl & Hz).
      destruct tail as [|a tl]; [cbn in Hl; lia|].
      destruct (@exists_last _ (a :: tl)) as (tail0 & t0 & Et);
        [discriminate|].
      rewrite Et in E, Hl, Hz. clear Et a tl.
      rewrite app_assoc in E. apply app_inj_tail in E. destruct E as [-> <-].
      apply Forall_app in Hz. destruct Hz as [Hz Hr].
      inversion Hr as [|? ? Hr0 _]; subst. cbn [Z.eqb].
      rewrite length_app. cbn [length].
      assert (H : (length tail0 <= Nexys.quiet (pre ++ tail0))%nat).
      { apply IH. exists pre, tail0. auto. }
      lia.
Qed.

(** X12.  The reset of IDELAYCTRL is released exactly when the last
    sixteen clk200 edges, at least, came with the domain reset down: it is
    held from power-up and from every domain reset for sixteen edges, and
    an edge with the reset up holds it again. *)
Theorem X12_ic_reset_released_after_16_quiet_edges (rsts : list Z) :
  (Nexys.crg_run rsts "ic_reset" = 0 <->
   exists pre tail,
     rsts = (pre ++ tail)%list /\ length tail = 16%nat
     /\ Forall (fun r => r = 0) tail)
  /\ (Nexys.crg_run rsts "ic_reset" = 0 \/ Nexys.crg_run rsts "ic_reset" = 1)
  /\ (forall r, r <> 0 -> Nexys.crg_run (rsts ++ [r]) "ic_reset" = 1).
Proof.
  destruct (crg_run_regs rsts) as [_ Hi]. cbv zeta in Hi.
  split; [|split].
  - rewrite <- (quiet_ge_iff rsts 16). rewrite Hi.
    destruct (Z.leb_spec (Z.of_nat (Nexys.quiet rsts)) 15); split;
      intros; try lia; try discriminate.
  - rewrite Hi. destruct (_ <=? _); auto.
  - intros r Hr. destruct (crg_run_regs (rsts ++ [r])) as [_ Hi'].
    cbv zeta in Hi'. rewrite Hi', quiet_snoc.
    apply Z.eqb_neq in Hr. rewrite Hr. reflexivity.
Qed.

(** X13.  The countdown never wraps: the counter stays in [0, 15], a
    reset-free edge takes one off it until it is 0 and then leaves it, and
    the reset of IDELAYCTRL is only ever down with the counter at 0. *)
Theorem X13_reset_counter_never_wraps (rsts : list Z) :
  let c := Nexys.crg_run rsts "reset_counter" in
  0 <= c <= 15
  /\ Nexys.crg_run (rsts ++ [0]) "reset_counter" = Z.max 0 (c - 1)
  /\ (Nexys.crg_run rsts "ic_reset" = 0 -> c = 0).
Proof.
  intros c. destruct (crg_run_regs rsts) as [Hc Hi]. cbv zeta in Hc, Hi.
  fold c in Hc.
  destruct (crg_run_regs (rsts ++ [0])) as [Hc' _]. cbv zeta in Hc'.
  rewrite quiet_snoc in Hc'. cbn [Z.eqb] in Hc'.
  rewrite Nat2Z.inj_succ in Hc'.
  split; [lia|]. split; [lia|].
  rewrite Hi. destruct (Z.leb_spec (Z.of_nat (Nexys.quiet rsts)) 15);
    [discriminate|lia].
Qed.

Lemma X12_ic_reset_released_after_16_quiet_edges_witness :
  Nexys.crg_run (1 :: repeat 0 16) "ic_reset" = 0.
Proof.
  apply (proj1 (X12_ic_reset_released_after_16_quiet_edges
                  (1 :: repeat 0 16))).
  exists [1], (repeat 0 16). cbn. repeat split; repeat constructor.
Defined.

Lemma X13_reset_counter_never_wraps_witness :
  Nexys.crg_run (repeat 0 20) "ic_reset" = 0
  /\ Nexys.crg_run (repeat 0 20) "reset_counter" = 0.
Proof.
  assert (H : Nexys.crg_run (repeat 0 20) "ic_reset" = 0) by reflexivity.
  split; [exact H|].
  exact (proj2 (proj2 (X13_reset_counter_never_wraps (repeat 0 20))) H).
Defined.

